(** * The CloudWatch output plugin, [plugins/outputs/cloudwatch/cloudwatch.go]

    A shallow embedding of the conversion core of the plugin (value
    conversion, field classification, the two datum builders, the metric
    aggregator, dimension selection, partitioning and the write driver)
    together with the properties that hold of it.

    Conventions of the embedding.
    - Go's [float64] is Rocq's primitive binary64 [float].
    - Go's [int]/[int64] are [Z]; the places where the source narrows or
      could wrap are written out ([int32], [wrap64]).
    - Go maps are [gmap]s.  The order in which [range] visits a map is not
      specified by Go.  Where the loop body depends on the order (the loop
      over [point.Fields()]), the order is an explicit argument and the
      statements quantify over it; where the result is only a list built by
      appending (the loops that collect datums), the model visits the map in
      [map_to_list] order and the statements are phrased with membership,
      length and permutation, which do not depend on that choice.
    - A Go pointer field that may be [nil] is an [option]. *)

From Stdlib Require Import ZArith Floats.
From stdpp Require Import gmap strings list fin_maps sorting.

Set Warnings "-inexact-float".

(** ** Go primitives used by the plugin *)

(** Package [strings]. *)
Module strings.

(** [strings.HasSuffix(s, suffix)]:
    [len(s) >= len(suffix) && s[len(s)-len(suffix):] == suffix]. *)
Definition HasSuffix (s suffix : string) : bool :=
  (String.length suffix <=? String.length s)%nat &&
  String.eqb
    (String.substring (String.length s - String.length suffix)
               (String.length suffix) s)
    suffix.

(** [strings.TrimSuffix(s, suffix)]: [s[:len(s)-len(suffix)]] when [s]
    ends in [suffix], [s] itself otherwise. *)
Definition TrimSuffix (s suffix : string) : string :=
  if HasSuffix s suffix
  then String.substring 0 (String.length s - String.length suffix) s
  else s.

(** [strings.Join(elems, sep)]. *)
Fixpoint Join (elems : list string) (sep : string) : string :=
  match elems with
  | [] => ""
  | [e] => e
  | e :: rest => e +:+ sep +:+ Join rest sep
  end.

End strings.

(** Package [time]: a [time.Time] is observed by the plugin only through
    [Unix()] (conversion of a field value) and as an opaque timestamp. *)
Module time.
Record Time : Type := { Unix : Z }.
End time.

(** Fixed-width integer conversions. *)
Definition int32 (z : Z) : Z := (z + 2 ^ 31) `mod` 2 ^ 32 - 2 ^ 31.
Definition wrap64 (z : Z) : Z := (z + 2 ^ 63) `mod` 2 ^ 64 - 2 ^ 63.

(** [float64(t)] for an integer [t]: the nearest binary64 value, ties to
    even. *)
Definition float64_of_int (t : Z) : float :=
  SF2Prim (binary_normalize prec emax t 0 false).

(** [math.IsNaN] and [math.IsInf(_, 0)]. *)
Module math.
Definition IsNaN (f : float) : bool := PrimFloat.is_nan f.
Definition IsInf0 (f : float) : bool := PrimFloat.is_infinity f.
End math.

(** A dynamically typed Go value ([interface{}]), as far as the type switch
    of [convert] can tell values apart: the seven types it names, and
    representatives of the types it does not name. *)
Inductive GoValue : Type :=
  | VInt (t : Z)
  | VInt8 (t : Z)
  | VInt16 (t : Z)
  | VInt32 (t : Z)
  | VInt64 (t : Z)
  | VUint (t : Z)
  | VUint8 (t : Z)
  | VUint16 (t : Z)
  | VUint32 (t : Z)
  | VUint64 (t : Z)
  | VFloat32 (t : float)
  | VFloat64 (t : float)
  | VBool (t : bool)
  | VTime (t : time.Time)
  | VString (t : string)
  | VNil.

(** The integer payload stays within the range of its Go type. *)
Definition in_range (v : GoValue) : Prop :=
  match v with
  | VInt t | VInt64 t => (- 2 ^ 63 ≤ t < 2 ^ 63)%Z
  | VInt8 t => (- 2 ^ 7 ≤ t < 2 ^ 7)%Z
  | VInt16 t => (- 2 ^ 15 ≤ t < 2 ^ 15)%Z
  | VInt32 t => (- 2 ^ 31 ≤ t < 2 ^ 31)%Z
  | VUint t | VUint64 t => (0 ≤ t < 2 ^ 64)%Z
  | VUint8 t => (0 ≤ t < 2 ^ 8)%Z
  | VUint16 t => (0 ≤ t < 2 ^ 16)%Z
  | VUint32 t => (0 ≤ t < 2 ^ 32)%Z
  | VTime t => (- 2 ^ 63 ≤ time.Unix t < 2 ^ 63)%Z
  | _ => True
  end.

(** Signed integers of any width, and unsigned 64-bit integers. *)
Definition signed_integer (v : GoValue) : option Z :=
  match v with
  | VInt t | VInt8 t | VInt16 t | VInt32 t | VInt64 t => Some t
  | _ => None
  end.

Definition unsigned64 (v : GoValue) : option Z :=
  match v with
  | VUint64 t => Some t
  | _ => None
  end.

(** ** Value conversion: [convert] *)

Definition lower_bound : float := 8.515920e-109%float.
Definition upper_bound : float := 1.174271e+108%float.

(** The type switch of [convert]: [Some value] for the seven cases, [None]
    for the [default] case. *)
Definition type_switch (v : GoValue) : option float :=
  match v with
  | VInt t => Some (float64_of_int t)
  | VInt32 t => Some (float64_of_int t)
  | VInt64 t => Some (float64_of_int t)
  | VUint64 t => Some (float64_of_int t)
  | VFloat64 t => Some t
  | VBool t => Some (if t then 1%float else 0%float)
  | VTime t => Some (float64_of_int (time.Unix t))
  | _ => None
  end.

(** The boundary [switch] of [convert]; [true] when one of its four cases
    fires. *)
Definition out_of_bounds (value : float) : bool :=
  if math.IsNaN value then true
  else if math.IsInf0 value then true
  else if PrimFloat.ltb 0 value && PrimFloat.ltb value lower_bound then true
  else if PrimFloat.ltb upper_bound value then true
  else false.

Definition convert (v : GoValue) : float * bool :=
  match type_switch v with
  | None => (0%float, false)
  | Some value =>
      if out_of_bounds value then (0%float, false) else (value, true)
  end.

(** ** Field classification: [getStatisticType] *)

Inductive statisticType : Set :=
  | statisticTypeNone
  | statisticTypeMax
  | statisticTypeMin
  | statisticTypeSum
  | statisticTypeCount.

#[global] Instance statisticType_eq_dec : EqDecision statisticType.
Proof. solve_decision. Defined.

(** The [iota] numbering of the constants. *)
Definition statisticType_to_nat (t : statisticType) : nat :=
  match t with
  | statisticTypeNone => 0
  | statisticTypeMax => 1
  | statisticTypeMin => 2
  | statisticTypeSum => 3
  | statisticTypeCount => 4
  end.

Definition statisticType_of_nat (n : nat) : option statisticType :=
  match n with
  | 0 => Some statisticTypeNone
  | 1 => Some statisticTypeMax
  | 2 => Some statisticTypeMin
  | 3 => Some statisticTypeSum
  | 4 => Some statisticTypeCount
  | _ => None
  end.

#[global] Program Instance statisticType_countable : Countable statisticType :=
  inj_countable statisticType_to_nat statisticType_of_nat _.
Next Obligation. by intros []. Qed.

Definition getStatisticType (name : string) : statisticType * string :=
  if strings.HasSuffix name "_max" then
    (statisticTypeMax, strings.TrimSuffix name "_max")
  else if strings.HasSuffix name "_min" then
    (statisticTypeMin, strings.TrimSuffix name "_min")
  else if strings.HasSuffix name "_sum" then
    (statisticTypeSum, strings.TrimSuffix name "_sum")
  else if strings.HasSuffix name "_count" then
    (statisticTypeCount, strings.TrimSuffix name "_count")
  else
    (statisticTypeNone, name).

(** ** The SDK's datum types ([cloudwatch/types]) and telegraf's metric *)

Module Dimension.
Record t : Type := { Name : string; Value : string }.
End Dimension.

Module StatisticSet.
Record t : Type :=
  { Minimum : float; Maximum : float; Sum : float; SampleCount : float }.
End StatisticSet.

(** The pointer fields of [types.MetricDatum] that the plugin may leave
    [nil] are options. *)
Module MetricDatum.
Record t : Type :=
  { MetricName : option string;
    Dimensions : list Dimension.t;
    Timestamp : option time.Time;
    Value : option float;
    StatisticValues : option StatisticSet.t;
    StorageResolution : option Z }.
End MetricDatum.

(** [telegraf.Metric], through the four accessors the plugin calls. *)
Module Metric.
Record t : Type :=
  { Name : string;
    Tags : gmap string string;
    Fields : gmap string GoValue;
    Time : time.Time }.
End Metric.

(** [order] is one of the orders in which [range] may visit map [m]. *)
Definition range_order {V : Type} (m : gmap string V)
    (order : list (string * V)) : Prop :=
  order ≡ₚ map_to_list m.

(** ** Dimension selection: [BuildDimensions] *)

(** [sort.Strings] orders by Go's [<=] on strings, which is bytewise
    lexicographic: [String.le]. *)
Module sort.
Definition Strings (keys : list string) : list string :=
  merge_sort String.le keys.
End sort.

Definition MaxDimensions : nat := 10.

(** The dimension list after the [if host, ok := mTags["host"]; ok] block. *)
Definition host_dimension (mTags : gmap string string) : list Dimension.t :=
  match mTags !! "host" with
  | Some host => [ {| Dimension.Name := "host"; Dimension.Value := host |} ]
  | None => []
  end.

(** The keys collected by the first [range mTags] loop. *)
Definition other_keys (mTags : gmap string string) : list string :=
  filter (λ k, k ≠ "host") (map fst (map_to_list mTags)).

(** The second loop, over the sorted keys, with its [break] and
    [continue]. *)
Fixpoint append_dimensions (mTags : gmap string string) (keys : list string)
    (dimensions : list Dimension.t) : list Dimension.t :=
  match keys with
  | [] => dimensions
  | k :: keys' =>
      if (MaxDimensions <=? length dimensions)%nat then dimensions
      else
        let value := default "" (mTags !! k) in
        if String.eqb value "" then append_dimensions mTags keys' dimensions
        else
          append_dimensions mTags keys'
            (dimensions ++
               [ {| Dimension.Name := k;
                    Dimension.Value := default "" (mTags !! k) |} ])
  end.

Definition BuildDimensions (mTags : gmap string string) : list Dimension.t :=
  append_dimensions mTags (sort.Strings (other_keys mTags))
    (host_dimension mTags).

(** The dimension made of key [k] and its value. *)
Definition dimension_of (tags : gmap string string) (k : string)
    : Dimension.t :=
  {| Dimension.Name := k; Dimension.Value := default "" (tags !! k) |}.

(** The tag [k] is present with a non-empty value. *)
Definition has_value (tags : gmap string string) (k : string) : Prop :=
  default "" (tags !! k) ≠ "".

#[global] Instance has_value_dec tags k : Decision (has_value tags k).
Proof. unfold has_value. apply _. Defined.

(** The dimension selector as the specification words it (section 4.5):
    the ["host"] tag first when it is present with a non-empty value, then
    the other keys in ascending order, those with an empty value skipped,
    until ten dimensions are reached. *)
Definition select_spec (tags : gmap string string) : list Dimension.t :=
  let host :=
    if decide (has_value tags "host") then [dimension_of tags "host"]
    else [] in
  host ++
  take (MaxDimensions - length host)
    (dimension_of tags <$>
       filter (has_value tags) (sort.Strings (other_keys tags))).

(** ** The two datum builders *)

Module statisticField.
Record t : Type :=
  { metricName : string;
    fieldName : string;
    tags : gmap string string;
    values : gmap statisticType float;
    timestamp : time.Time;
    storageResolution : Z }.

Definition addValue (f : t) (sType : statisticType) (value : float) : t :=
  if decide (sType ≠ statisticTypeNone) then
    {| metricName := metricName f;
       fieldName := fieldName f;
       tags := tags f;
       values := <[sType := value]> (values f);
       timestamp := timestamp f;
       storageResolution := storageResolution f |}
  else f.

Definition hasAllFields (f : t) : bool :=
  let hasMin := bool_decide (is_Some (values f !! statisticTypeMin)) in
  let hasMax := bool_decide (is_Some (values f !! statisticTypeMax)) in
  let hasSum := bool_decide (is_Some (values f !! statisticTypeSum)) in
  let hasCount := bool_decide (is_Some (values f !! statisticTypeCount)) in
  hasMin && hasMax && hasSum && hasCount.

(** The name given by the [switch sType] of the fallback loop; [None] is
    its [default: continue]. *)
Definition suffixName (f : t) (sType : statisticType) : option string :=
  match sType with
  | statisticTypeMin =>
      Some (strings.Join [metricName f; fieldName f; "min"] "_")
  | statisticTypeMax =>
      Some (strings.Join [metricName f; fieldName f; "max"] "_")
  | statisticTypeSum =>
      Some (strings.Join [metricName f; fieldName f; "sum"] "_")
  | statisticTypeCount =>
      Some (strings.Join [metricName f; fieldName f; "count"] "_")
  | statisticTypeNone => None
  end.

(** One iteration of the fallback loop: the datum appended for the entry
    [(sType, value)] of [f.values], if any. *)
Definition independentDatum (f : t) (entry : statisticType * float)
    : option MetricDatum.t :=
  name ← suffixName f entry.1;
  Some {| MetricDatum.MetricName := Some name;
          MetricDatum.Dimensions := BuildDimensions (tags f);
          MetricDatum.Timestamp := Some (timestamp f);
          MetricDatum.Value := Some entry.2;
          MetricDatum.StatisticValues := None;
          MetricDatum.StorageResolution := None |}.

Definition buildDatum (f : t) : list MetricDatum.t :=
  if hasAllFields f then
    let min := default 0%float (values f !! statisticTypeMin) in
    let max := default 0%float (values f !! statisticTypeMax) in
    let sum := default 0%float (values f !! statisticTypeSum) in
    let count := default 0%float (values f !! statisticTypeCount) in
    [ {| MetricDatum.MetricName :=
           Some (strings.Join [metricName f; fieldName f] "_");
         MetricDatum.Dimensions := BuildDimensions (tags f);
         MetricDatum.Timestamp := Some (timestamp f);
         MetricDatum.Value := None;
         MetricDatum.StatisticValues :=
           Some {| StatisticSet.Minimum := min;
                   StatisticSet.Maximum := max;
                   StatisticSet.Sum := sum;
                   StatisticSet.SampleCount := count |};
         MetricDatum.StorageResolution :=
           Some (int32 (storageResolution f)) |} ]
  else
    omap (independentDatum f) (map_to_list (values f)).
End statisticField.

Module valueField.
Record t : Type :=
  { metricName : string;
    fieldName : string;
    tags : gmap string string;
    value : float;
    timestamp : time.Time;
    storageResolution : Z }.

Definition addValue (f : t) (sType : statisticType) (v : float) : t :=
  if decide (sType = statisticTypeNone) then
    {| metricName := metricName f;
       fieldName := fieldName f;
       tags := tags f;
       value := v;
       timestamp := timestamp f;
       storageResolution := storageResolution f |}
  else f.

Definition buildDatum (f : t) : list MetricDatum.t :=
  [ {| MetricDatum.MetricName :=
         Some (strings.Join [metricName f; fieldName f] "_");
       MetricDatum.Dimensions := BuildDimensions (tags f);
       MetricDatum.Timestamp := Some (timestamp f);
       MetricDatum.Value := Some (value f);
       MetricDatum.StatisticValues := None;
       MetricDatum.StorageResolution :=
         Some (int32 (storageResolution f)) |} ].
End valueField.

(** The interface [cloudwatchField], implemented by the two builders. *)
Class cloudwatchField (T : Type) : Type :=
  { addValue : T → statisticType → float → T;
    buildDatum : T → list MetricDatum.t }.

#[global] Instance statisticField_cloudwatchField
    : cloudwatchField statisticField.t :=
  {| addValue := statisticField.addValue;
     buildDatum := statisticField.buildDatum |}.

#[global] Instance valueField_cloudwatchField
    : cloudwatchField valueField.t :=
  {| addValue := valueField.addValue;
     buildDatum := valueField.buildDatum |}.

(** A value of interface type [cloudwatchField]: one of the two
    implementations, told apart by its dynamic type. *)
Inductive field : Type :=
  | StatisticField (f : statisticField.t)
  | ValueField (f : valueField.t).

#[global] Instance field_cloudwatchField : cloudwatchField field :=
  {| addValue f sType value :=
       match f with
       | StatisticField f => StatisticField (addValue f sType value)
       | ValueField f => ValueField (addValue f sType value)
       end;
     buildDatum f :=
       match f with
       | StatisticField f => buildDatum f
       | ValueField f => buildDatum f
       end |}.

(** ** The metric aggregator: [BuildMetricDatum] *)

Definition storageResolutionOf (highResolutionMetrics : bool) : Z :=
  if highResolutionMetrics then 1 else 60.

(** The body of the loop [for k, v := range point.Fields()], acting on the
    map [fields].  The map holds pointers, so [fields[fieldName].addValue]
    updates the accumulator stored under [fieldName]. *)
Definition process_field (buildStatistic : bool) (storageResolution : Z)
    (point : Metric.t) (fields : gmap string field) (kv : string * GoValue)
    : gmap string field :=
  let k := kv.1 in
  let '(val, ok) := convert kv.2 in
  if negb ok then fields
  else
    let '(sType, fieldName) := getStatisticType k in
    if negb buildStatistic || bool_decide (sType = statisticTypeNone) then
      <[k := ValueField
               {| valueField.metricName := Metric.Name point;
                  valueField.fieldName := k;
                  valueField.tags := Metric.Tags point;
                  valueField.timestamp := Metric.Time point;
                  valueField.value := val;
                  valueField.storageResolution := storageResolution |}]>
        fields
    else
      match fields !! fieldName with
      | None =>
          <[fieldName := StatisticField
               {| statisticField.metricName := Metric.Name point;
                  statisticField.fieldName := fieldName;
                  statisticField.tags := Metric.Tags point;
                  statisticField.timestamp := Metric.Time point;
                  statisticField.values := {[ sType := val ]};
                  statisticField.storageResolution := storageResolution |}]>
            fields
      | Some f => <[fieldName := addValue f sType val]> fields
      end.

(** The accumulators left in [fields] once the first loop has visited the
    metric's fields in the given order. *)
Definition accumulate (buildStatistic highResolutionMetrics : bool)
    (point : Metric.t) (order : list (string * GoValue))
    : gmap string field :=
  foldl
    (process_field buildStatistic (storageResolutionOf highResolutionMetrics)
       point)
    ∅ order.

(** The invariant of the first loop that the fallback of
    [statisticField.buildDatum] relies on: no statistic accumulator holds a
    value under [statisticTypeNone]. *)
Definition no_None_kind (fields : gmap string field) : Prop :=
  ∀ (key : string) (f : statisticField.t),
    fields !! key = Some (StatisticField f) →
    statisticField.values f !! statisticTypeNone = None.

(** What every accumulator stored under [key] while a metric is processed
    satisfies: it carries the metric's name, tags and timestamp, its field
    name is its key, and each value it holds passed the range check of
    [convert]. *)
Definition accumulator_of (point : Metric.t) (key : string) (acc : field)
    : Prop :=
  match acc with
  | StatisticField f =>
      statisticField.metricName f = Metric.Name point ∧
      statisticField.fieldName f = key ∧
      statisticField.tags f = Metric.Tags point ∧
      statisticField.timestamp f = Metric.Time point ∧
      ∀ sType value,
        statisticField.values f !! sType = Some value →
        sType ≠ statisticTypeNone ∧ out_of_bounds value = false
  | ValueField f =>
      valueField.metricName f = Metric.Name point ∧
      valueField.fieldName f = key ∧
      valueField.tags f = Metric.Tags point ∧
      valueField.timestamp f = Metric.Time point ∧
      out_of_bounds (valueField.value f) = false
  end.

(** The second loop, [for _, f := range fields]. *)
Definition flatten (fields : gmap string field) : list MetricDatum.t :=
  concat (map (λ kf, buildDatum kf.2) (map_to_list fields)).

(** [BuildMetricDatum] when [range point.Fields()] visits the fields in
    [order]. *)
Definition BuildMetricDatumIn (buildStatistic highResolutionMetrics : bool)
    (point : Metric.t) (order : list (string * GoValue))
    : list MetricDatum.t :=
  flatten (accumulate buildStatistic highResolutionMetrics point order).

Definition BuildMetricDatum (buildStatistic highResolutionMetrics : bool)
    (point : Metric.t) : list MetricDatum.t :=
  BuildMetricDatumIn buildStatistic highResolutionMetrics point
    (map_to_list (Metric.Fields point)).

(** What the specification calls "kind [sType] was observed for base name
    [baseName] within the metric": the metric has the field named
    [baseName] followed by the suffix of the kind, and its value converts
    to [value]. *)
Definition suffix (sType : statisticType) : string :=
  match sType with
  | statisticTypeMax => "_max"
  | statisticTypeMin => "_min"
  | statisticTypeSum => "_sum"
  | statisticTypeCount => "_count"
  | statisticTypeNone => ""
  end.

Definition observed (point : Metric.t) (baseName : string)
    (sType : statisticType) (value : float) : Prop :=
  sType ≠ statisticTypeNone ∧
  ∃ raw, Metric.Fields point !! (baseName +:+ suffix sType) = Some raw ∧
         convert raw = (value, true).

(** The values that the fields visited in [order] hand to the statistic
    accumulator of [baseName]: those of the convertible fields that
    [getStatisticType] classifies under [baseName] with a kind. *)
Definition contributes (baseName : string) (kv : string * GoValue)
    : option (statisticType * float) :=
  let '(val, ok) := convert kv.2 in
  let '(sType, fieldName) := getStatisticType kv.1 in
  if ok && bool_decide (sType ≠ statisticTypeNone)
        && bool_decide (fieldName = baseName)
  then Some (sType, val) else None.

Definition stat_values (order : list (string * GoValue))
    (baseName : string) : gmap statisticType float :=
  foldl
    (λ values kv,
       match contributes baseName kv with
       | Some (sType, val) => <[sType := val]> values
       | None => values
       end)
    ∅ order.

(** [k] is visited as a plain field: it converts and carries no suffix. *)
Definition plain_field (order : list (string * GoValue)) (k : string)
    (val : float) : Prop :=
  (getStatisticType k).1 = statisticTypeNone ∧
  ∃ raw, (k, raw) ∈ order ∧ convert raw = (val, true).

(** The statistic accumulator of [baseName] holding [values]. *)
Definition statisticFieldOf (highResolutionMetrics : bool)
    (point : Metric.t) (baseName : string)
    (values : gmap statisticType float) : statisticField.t :=
  {| statisticField.metricName := Metric.Name point;
     statisticField.fieldName := baseName;
     statisticField.tags := Metric.Tags point;
     statisticField.values := values;
     statisticField.timestamp := Metric.Time point;
     statisticField.storageResolution :=
       storageResolutionOf highResolutionMetrics |}.

(** The raw-value accumulator of field [k]. *)
Definition valueFieldOf (highResolutionMetrics : bool)
    (point : Metric.t) (k : string) (val : float) : valueField.t :=
  {| valueField.metricName := Metric.Name point;
     valueField.fieldName := k;
     valueField.tags := Metric.Tags point;
     valueField.value := val;
     valueField.timestamp := Metric.Time point;
     valueField.storageResolution :=
       storageResolutionOf highResolutionMetrics |}.

(** The three shapes of datum that [BuildMetricDatum] emits. *)
Definition kindName (sType : statisticType) : string :=
  match sType with
  | statisticTypeMax => "max"
  | statisticTypeMin => "min"
  | statisticTypeSum => "sum"
  | statisticTypeCount => "count"
  | statisticTypeNone => ""
  end.

Definition statisticSetDatum (highResolutionMetrics : bool)
    (point : Metric.t) (baseName : string) (min max sum count : float)
    : MetricDatum.t :=
  {| MetricDatum.MetricName :=
       Some (strings.Join [Metric.Name point; baseName] "_");
     MetricDatum.Dimensions := BuildDimensions (Metric.Tags point);
     MetricDatum.Timestamp := Some (Metric.Time point);
     MetricDatum.Value := None;
     MetricDatum.StatisticValues :=
       Some {| StatisticSet.Minimum := min;
               StatisticSet.Maximum := max;
               StatisticSet.Sum := sum;
               StatisticSet.SampleCount := count |};
     MetricDatum.StorageResolution :=
       Some (storageResolutionOf highResolutionMetrics) |}.

Definition independentDatumOf (point : Metric.t) (baseName : string)
    (sType : statisticType) (value : float) : MetricDatum.t :=
  {| MetricDatum.MetricName :=
       Some (strings.Join [Metric.Name point; baseName; kindName sType] "_");
     MetricDatum.Dimensions := BuildDimensions (Metric.Tags point);
     MetricDatum.Timestamp := Some (Metric.Time point);
     MetricDatum.Value := Some value;
     MetricDatum.StatisticValues := None;
     MetricDatum.StorageResolution := None |}.

(** The raw-value datum of a field. *)
Definition rawDatum (highResolutionMetrics : bool) (point : Metric.t)
    (k : string) (val : float) : MetricDatum.t :=
  {| MetricDatum.MetricName := Some (strings.Join [Metric.Name point; k] "_");
     MetricDatum.Dimensions := BuildDimensions (Metric.Tags point);
     MetricDatum.Timestamp := Some (Metric.Time point);
     MetricDatum.Value := Some val;
     MetricDatum.StatisticValues := None;
     MetricDatum.StorageResolution :=
       Some (storageResolutionOf highResolutionMetrics) |}.

(** ** Partitioning: [PartitionDatums] *)

(** The slice expression [s[lo:hi]]; [None] is the run-time panic for
    bounds out of range. *)
Definition slice {A : Type} (s : list A) (lo hi : Z) : option (list A) :=
  if decide (0 ≤ lo ≤ hi ∧ hi ≤ Z.of_nat (length s))%Z
  then Some (take (Z.to_nat (hi - lo)) (drop (Z.to_nat lo) s))
  else None.

(** [n] iterations of the loop of [PartitionDatums], from index [i] on. *)
Fixpoint partition_loop (size : Z) (datums : list MetricDatum.t)
    (i : Z) (n : nat) : option (list (list MetricDatum.t)) :=
  match n with
  | O => Some []
  | S n' =>
      let start := wrap64 (size * i) in
      let end_ := wrap64 (size * wrap64 (i + 1)) in
      let end_ :=
        if decide (end_ > Z.of_nat (length datums))%Z
        then Z.of_nat (length datums) else end_ in
      partition ← slice datums start end_;
      rest ← partition_loop size datums (wrap64 (i + 1)) n';
      Some (partition :: rest)
  end.

(** [None] is a run-time panic: division by zero, a negative length given
    to [make], or a slice out of range. *)
Definition PartitionDatums (size : Z) (datums : list MetricDatum.t)
    : option (list (list MetricDatum.t)) :=
  let len := Z.of_nat (length datums) in
  if decide (size = 0)%Z then None
  else
    let numberOfPartitions := wrap64 (len `quot` size) in
    let numberOfPartitions :=
      if decide (len `rem` size ≠ 0)%Z
      then wrap64 (numberOfPartitions + 1) else numberOfPartitions in
    if decide (numberOfPartitions < 0)%Z then None
    else partition_loop size datums 0 (Z.to_nat numberOfPartitions).

(** ** The write driver: [Write] and [WriteToCloudWatch] *)

Module PutMetricDataInput.
Record t : Type :=
  { MetricData : list MetricDatum.t; Namespace : option string }.
End PutMetricDataInput.

Module CloudWatch.
Record t : Type :=
  { Namespace : string;
    HighResolutionMetrics : bool;
    WriteStatistics : bool }.
End CloudWatch.

Definition maxDatumsPerCall : Z := 20.

Section Transport.

(** The error type of the transport. *)
Context {error : Type}.

(** What the plugin does to the outside world: calls of
    [svc.PutMetricData] and lines written with [Log.Errorf]. *)
Inductive event : Type :=
  | PutMetricData (params : PutMetricDataInput.t)
  | LogErrorf (err : error).

(** The remote service: its answer to a call may depend on everything
    that happened before. *)
Variable respond : list event → PutMetricDataInput.t → option error.

(** A computation that extends the history of events. *)
Definition IO (A : Type) : Type := list event → A * list event.

(** The [params] built by [WriteToCloudWatch]. *)
Definition params (c : CloudWatch.t) (datums : list MetricDatum.t)
    : PutMetricDataInput.t :=
  {| PutMetricDataInput.MetricData := datums;
     PutMetricDataInput.Namespace := Some (CloudWatch.Namespace c) |}.

Definition WriteToCloudWatch (c : CloudWatch.t)
    (datums : list MetricDatum.t) : IO (option error) :=
  λ history,
    let err := respond history (params c datums) in
    let history := history ++ [PutMetricData (params c datums)] in
    match err with
    | Some e => (err, history ++ [LogErrorf e])
    | None => (err, history)
    end.

(** The loop [for _, partition := range PartitionDatums(...)], with its
    early [return err]. *)
Fixpoint write_partitions (c : CloudWatch.t)
    (partitions : list (list MetricDatum.t)) : IO (option error) :=
  λ history,
    match partitions with
    | [] => (None, history)
    | partition :: rest =>
        let '(err, history) := WriteToCloudWatch c partition history in
        match err with
        | Some _ => (err, history)
        | None => write_partitions c rest history
        end
    end.

(** The datums collected by the first loop of [Write]. *)
Definition collect (c : CloudWatch.t) (metrics : list Metric.t)
    : list MetricDatum.t :=
  concat
    (map (BuildMetricDatum (CloudWatch.WriteStatistics c)
            (CloudWatch.HighResolutionMetrics c))
       metrics).

(** [None] is a panic of [PartitionDatums]. *)
Definition Write (c : CloudWatch.t) (metrics : list Metric.t)
    (history : list event) : option (option error * list event) :=
  partitions ← PartitionDatums maxDatumsPerCall (collect c metrics);
  Some (write_partitions c partitions history).

(** The partitions handed to [svc.PutMetricData], in the order of the
    calls. *)
Definition submitted (history : list event) : list (list MetricDatum.t) :=
  omap (λ ev,
          match ev with
          | PutMetricData params =>
              Some (PutMetricDataInput.MetricData params)
          | LogErrorf _ => None
          end)
       history.

(** The events of a run that submitted [sent] and ended with [err]. *)
Definition events_of (c : CloudWatch.t) (sent : list (list MetricDatum.t))
    (err : option error) : list event :=
  map (λ p, PutMetricData (params c p)) sent ++
  match err with Some e => [LogErrorf e] | None => [] end.

End Transport.

(** ** Sample inputs *)

Definition sampleTime : time.Time := {| time.Unix := 1700000000 |}.

Definition sampleDatum : MetricDatum.t :=
  {| MetricDatum.MetricName := Some "cpu_usage";
     MetricDatum.Dimensions := [];
     MetricDatum.Timestamp := Some sampleTime;
     MetricDatum.Value := Some 1%float;
     MetricDatum.StatisticValues := None;
     MetricDatum.StorageResolution := Some 60%Z |}.

Definition sampleCloudWatch : CloudWatch.t :=
  {| CloudWatch.Namespace := "InfluxData/Telegraf";
     CloudWatch.HighResolutionMetrics := false;
     CloudWatch.WriteStatistics := false |}.

(** A metric named ["m"] with the given fields and tags. *)
Definition sampleMetric (fields : list (string * GoValue))
    (tags : list (string * string)) : Metric.t :=
  {| Metric.Name := "m";
     Metric.Tags := list_to_map tags;
     Metric.Fields := list_to_map fields;
     Metric.Time := sampleTime |}.

(** * Properties *)

(** ** Value conversion *)

Lemma out_of_bounds_true (value : float) :
  out_of_bounds value = true ↔
    PrimFloat.is_nan value = true ∨
    PrimFloat.is_infinity value = true ∨
    (PrimFloat.ltb 0 value = true ∧ PrimFloat.ltb value lower_bound = true) ∨
    PrimFloat.ltb upper_bound value = true.
Proof.
  unfold out_of_bounds, math.IsNaN, math.IsInf0.
  destruct (PrimFloat.is_nan value); [tauto|].
  destruct (PrimFloat.is_infinity value); [tauto|].
  destruct (PrimFloat.ltb 0 value), (PrimFloat.ltb value lower_bound);
    simpl; try tauto;
    destruct (PrimFloat.ltb upper_bound value); intuition congruence.
Qed.

Lemma convert_ok_iff (v : GoValue) (value : float) :
  type_switch v = Some value →
  (convert v).2 = false ↔ out_of_bounds value = true.
Proof.
  intros Hv. unfold convert. rewrite Hv.
  destruct (out_of_bounds value); simpl; intuition congruence.
Qed.

Lemma convert_accepts (v : GoValue) (value : float) :
  type_switch v = Some value → out_of_bounds value = false →
  convert v = (value, true).
Proof. intros Hv Hb. unfold convert. by rewrite Hv, Hb. Qed.

(** Comparison against zero, read on the specification of the binary64
    format. *)
Lemma nonpositive_not_positive (value : float) :
  PrimFloat.leb value 0 = true → PrimFloat.ltb 0 value = false.
Proof.
  rewrite FloatAxioms.leb_spec, FloatAxioms.ltb_spec.
  unfold SFleb, SFltb. change (Prim2SF 0) with (S754_zero false).
  destruct (Prim2SF value) as [s|s| |s m e]; simpl; try done;
    destruct s; done.
Qed.

Lemma nonpositive_below_upper (value : float) :
  PrimFloat.leb value 0 = true → PrimFloat.ltb upper_bound value = false.
Proof.
  rewrite FloatAxioms.leb_spec, FloatAxioms.ltb_spec.
  unfold SFleb, SFltb. change (Prim2SF 0) with (S754_zero false).
  replace (Prim2SF upper_bound)
    with (S754_finite false 9007197019669729 306) by (by vm_compute).
  destruct (Prim2SF value) as [s|s| |s m e]; simpl; try done;
    destruct s; done.
Qed.

Lemma nonpositive_not_nan (value : float) :
  PrimFloat.leb value 0 = true → PrimFloat.is_nan value = false.
Proof.
  unfold PrimFloat.is_nan.
  rewrite FloatAxioms.leb_spec, FloatAxioms.eqb_spec.
  unfold SFleb, SFeqb. change (Prim2SF 0) with (S754_zero false).
  destruct (Prim2SF value) as [s|s| |s m e]; simpl; try done.
  - destruct s; done.
  - intros _. destruct s; simpl; rewrite Z.compare_refl, Pos.compare_refl; done.
Qed.

Lemma finite_nonpositive_in_bounds (value : float) :
  PrimFloat.leb value 0 = true → PrimFloat.is_infinity value = false →
  out_of_bounds value = false.
Proof.
  intros Hle Hinf. unfold out_of_bounds, math.IsNaN, math.IsInf0.
  by rewrite (nonpositive_not_nan _ Hle), Hinf,
    (nonpositive_not_positive _ Hle), (nonpositive_below_upper _ Hle).
Qed.

(** C5: once the type switch has produced [value], [convert] answers
    [ok = false] exactly when [value] is NaN, infinite, strictly positive
    and below 8.515920e-109, or above 1.174271e108.  A value that is zero
    or negative never fires the lower-bound case, and is accepted when
    finite.  1e-200 and 2e108 are dropped; 0, 1.0 and 1e100 are
    accepted. *)
Theorem convert_range_check :
  (∀ (v : GoValue) (value : float),
     type_switch v = Some value →
     ((convert v).2 = false ↔
        PrimFloat.is_nan value = true ∨
        PrimFloat.is_infinity value = true ∨
        (PrimFloat.ltb 0 value = true ∧
         PrimFloat.ltb value lower_bound = true) ∨
        PrimFloat.ltb upper_bound value = true) ∧
     (PrimFloat.leb value 0 = true →
        PrimFloat.ltb 0 value && PrimFloat.ltb value lower_bound = false ∧
        (PrimFloat.is_infinity value = false → convert v = (value, true)))) ∧
  convert (VFloat64 1e-200) = (0%float, false) ∧
  convert (VFloat64 0) = (0%float, true) ∧
  convert (VFloat64 1) = (1%float, true) ∧
  convert (VFloat64 1e100) = (1e100%float, true) ∧
  convert (VFloat64 2e108) = (0%float, false).
Proof.
  split; [|by vm_compute].
  intros v value Hv. split.
  - rewrite (convert_ok_iff _ _ Hv). apply out_of_bounds_true.
  - intros Hle. split.
    + by rewrite (nonpositive_not_positive _ Hle).
    + intros Hinf. apply convert_accepts; [done|].
      by apply finite_nonpositive_in_bounds.
Qed.

Lemma convert_range_check_witness :
  (convert (VFloat64 (-2.5))).2 = true ∧
  (convert (VInt64 0)).2 = true ∧
  (convert (VFloat64 1e-120)).2 = false.
Proof.
  destruct convert_range_check as [H _]. split; [|split].
  - destruct (H (VFloat64 (-2.5)) (-2.5)%float eq_refl) as [_ Hneg].
    destruct (Hneg eq_refl) as [_ ->]; reflexivity.
  - destruct (H (VInt64 0) (float64_of_int 0) eq_refl) as [_ Hneg].
    destruct (Hneg eq_refl) as [_ ->]; reflexivity.
  - destruct (H (VFloat64 1e-120) (1e-120)%float eq_refl) as [Hiff _].
    apply Hiff. right; right; left. split; reflexivity.
Defined.

(** C6, as stated, fails: an [int8] is a signed integer whose widened
    value passes the range check, and [convert] drops it as an unsupported
    type. *)
Lemma convert_drops_int8 :
  ¬ (∀ (v : GoValue) (t : Z),
       signed_integer v = Some t ∨ unsigned64 v = Some t →
       in_range v →
       out_of_bounds (float64_of_int t) = false →
       convert v = (float64_of_int t, true)).
Proof.
  intros H. specialize (H (VInt8 5) 5%Z).
  assert (convert (VInt8 5) = (float64_of_int 5, true)) as Hc.
  { apply H; [by left| simpl; lia | reflexivity]. }
  vm_compute in Hc. discriminate Hc.
Qed.

(** C6, amended: a value of type [int], [int32], [int64] or [uint64] is
    widened to floating point and returned with [ok = true] whenever the
    widened value passes the range check; [int8] and [int16] values (and
    the narrower unsigned types) take the [default] case and are dropped
    as unsupported. *)
Theorem convert_widens_named_integers :
  (∀ (v : GoValue) (t : Z),
     v = VInt t ∨ v = VInt32 t ∨ v = VInt64 t ∨ v = VUint64 t →
     out_of_bounds (float64_of_int t) = false →
     convert v = (float64_of_int t, true)) ∧
  (∀ (v : GoValue) (t : Z),
     v = VInt8 t ∨ v = VInt16 t ∨
     v = VUint t ∨ v = VUint8 t ∨ v = VUint16 t ∨ v = VUint32 t →
     convert v = (0%float, false)).
Proof.
  split.
  - intros v t Hv Hb. apply convert_accepts; [|done].
    destruct Hv as [->|[->|[->| ->]]]; reflexivity.
  - intros v t Hv. by destruct Hv as [->|[->|[->|[->|[->| ->]]]]].
Qed.

Lemma convert_widens_named_integers_witness :
  convert (VInt64 (2 ^ 63 - 1)) = (9223372036854775808%float, true) ∧
  convert (VUint64 (2 ^ 64 - 1)) = (18446744073709551616%float, true) ∧
  convert (VInt16 (-7)) = (0%float, false).
Proof.
  destruct convert_widens_named_integers as [Hyes Hno].
  split; [|split].
  - apply (Hyes (VInt64 (2 ^ 63 - 1)) (2 ^ 63 - 1)%Z); [tauto | reflexivity].
  - apply (Hyes (VUint64 (2 ^ 64 - 1)) (2 ^ 64 - 1)%Z); [tauto | reflexivity].
  - apply (Hno (VInt16 (-7)) (-7)%Z). tauto.
Defined.

(** ** Suffixes of field names *)

Lemma string_length_app (a b : string) :
  String.length (a +:+ b) = String.length a + String.length b.
Proof. induction a as [|c a IH]; simpl; [done | by rewrite IH]. Qed.

Lemma substring_all (s : string) :
  String.substring 0 (String.length s) s = s.
Proof. induction s as [|c s IH]; simpl; [done | by rewrite IH]. Qed.

Lemma substring_prefix_app (a b : string) :
  String.substring 0 (String.length a) (a +:+ b) = a.
Proof.
  induction a as [|c a IH]; simpl; [by destruct b | by rewrite IH].
Qed.

Lemma substring_suffix_app (a b : string) :
  String.substring (String.length a) (String.length b) (a +:+ b) = b.
Proof. induction a as [|c a IH]; simpl; [apply substring_all | done]. Qed.

Lemma substring_split (s : string) :
  ∀ n, n ≤ String.length s →
    String.substring 0 n s +:+
      String.substring n (String.length s - n) s = s.
Proof.
  induction s as [|c s IH]; intros [|n] Hn; simpl in *; try done; try lia.
  - by rewrite substring_all.
  - change (String c (String.substring 0 n s +:+
                       String.substring n (String.length s - n) s) =
            String c s).
    by rewrite IH by lia.
Qed.

Lemma HasSuffix_app (base suffix : string) :
  strings.HasSuffix (base +:+ suffix) suffix = true.
Proof.
  unfold strings.HasSuffix. rewrite string_length_app.
  rewrite (proj2 (Nat.leb_le _ _)) by lia.
  replace (String.length base + String.length suffix - String.length suffix)
    with (String.length base) by lia.
  rewrite substring_suffix_app. simpl. apply String.eqb_refl.
Qed.

Lemma TrimSuffix_app (base suffix : string) :
  strings.TrimSuffix (base +:+ suffix) suffix = base.
Proof.
  unfold strings.TrimSuffix. rewrite HasSuffix_app, string_length_app.
  replace (String.length base + String.length suffix - String.length suffix)
    with (String.length base) by lia.
  apply substring_prefix_app.
Qed.

Lemma HasSuffix_inv (s suffix : string) :
  strings.HasSuffix s suffix = true →
  s = strings.TrimSuffix s suffix +:+ suffix.
Proof.
  intros H. unfold strings.TrimSuffix. rewrite H.
  unfold strings.HasSuffix in H. apply andb_true_iff in H as [Hlen Heq].
  apply Nat.leb_le in Hlen. apply String.eqb_eq in Heq.
  pose proof (substring_split s (String.length s - String.length suffix)
                ltac:(lia)) as Hsplit.
  replace (String.length s - (String.length s - String.length suffix))
    with (String.length suffix) in Hsplit by lia.
  by rewrite Heq in Hsplit.
Qed.

(** Two suffixes of the same length on equal strings are equal. *)
Lemma HasSuffix_app_other (base suffix other : string) :
  String.length other = String.length suffix → other ≠ suffix →
  strings.HasSuffix (base +:+ suffix) other = false.
Proof.
  intros Hlen Hne. unfold strings.HasSuffix.
  rewrite string_length_app, Hlen.
  replace (String.length base + String.length suffix - String.length suffix)
    with (String.length base) by lia.
  rewrite substring_suffix_app.
  apply andb_false_iff. right. apply String.eqb_neq. congruence.
Qed.

Lemma string_app_assoc (a b c : string) : (a +:+ b) +:+ c = a +:+ b +:+ c.
Proof.
  induction a as [|x a IH]; [done | exact (f_equal (String x) IH)].
Qed.

(** [getStatisticType] recognises exactly the names made of a base name
    and the suffix of a kind. *)
Lemma getStatisticType_app (baseName : string) (sType : statisticType) :
  sType ≠ statisticTypeNone →
  getStatisticType (baseName +:+ suffix sType) = (sType, baseName).
Proof.
  intros HsType. unfold getStatisticType.
  destruct sType; [done|..]; simpl suffix.
  - by rewrite HasSuffix_app, TrimSuffix_app.
  - rewrite (HasSuffix_app_other _ "_min" "_max") by done.
    by rewrite HasSuffix_app, TrimSuffix_app.
  - rewrite (HasSuffix_app_other _ "_sum" "_max") by done.
    rewrite (HasSuffix_app_other _ "_sum" "_min") by done.
    by rewrite HasSuffix_app, TrimSuffix_app.
  - change (baseName +:+ "_count") with (baseName +:+ "_c" +:+ "ount").
    rewrite <- string_app_assoc.
    rewrite (HasSuffix_app_other _ "ount" "_max") by done.
    rewrite (HasSuffix_app_other _ "ount" "_min") by done.
    rewrite (HasSuffix_app_other _ "ount" "_sum") by done.
    rewrite string_app_assoc.
    change (baseName +:+ "_c" +:+ "ount") with (baseName +:+ "_count").
    by rewrite HasSuffix_app, TrimSuffix_app.
Qed.

Lemma getStatisticType_inv (name baseName : string) (sType : statisticType) :
  getStatisticType name = (sType, baseName) →
  name = baseName +:+ suffix sType.
Proof.
  unfold getStatisticType.
  destruct (strings.HasSuffix name "_max") eqn:Hmax;
    [intros [= <- <-]; by apply HasSuffix_inv|].
  destruct (strings.HasSuffix name "_min") eqn:Hmin;
    [intros [= <- <-]; by apply HasSuffix_inv|].
  destruct (strings.HasSuffix name "_sum") eqn:Hsum;
    [intros [= <- <-]; by apply HasSuffix_inv|].
  destruct (strings.HasSuffix name "_count") eqn:Hcount;
    [intros [= <- <-]; by apply HasSuffix_inv|].
  intros [= <- <-]. simpl. clear.
  induction name as [|c name IH]; [done | exact (f_equal (String c) IH)].
Qed.

Lemma getStatisticType_iff (name baseName : string) (sType : statisticType) :
  sType ≠ statisticTypeNone →
  getStatisticType name = (sType, baseName) ↔
  name = baseName +:+ suffix sType.
Proof.
  intros HsType. split; [apply getStatisticType_inv|].
  intros ->. by apply getStatisticType_app.
Qed.

(** ** Dimension selection *)

(** [sort.Strings] returns its argument in ascending order. *)
Lemma sort_Strings_sorted (keys : list string) :
  StronglySorted String.le (sort.Strings keys) ∧ sort.Strings keys ≡ₚ keys.
Proof.
  split; [apply StronglySorted_merge_sort; apply _|].
  apply merge_sort_Permutation.
Qed.

(** The order in which the first loop collected the keys is immaterial. *)
Lemma sort_Strings_order_irrelevant (keys keys' : list string) :
  keys ≡ₚ keys' → sort.Strings keys = sort.Strings keys'.
Proof.
  intros Hperm. apply (StronglySorted_unique String.le).
  - apply sort_Strings_sorted.
  - apply sort_Strings_sorted.
  - unfold sort.Strings. by rewrite !merge_sort_Permutation.
Qed.

Lemma other_keys_spec (mTags : gmap string string) (k : string) :
  k ∈ other_keys mTags ↔ k ≠ "host" ∧ is_Some (mTags !! k).
Proof.
  unfold other_keys. rewrite list_elem_of_filter, list_elem_of_fmap.
  split.
  - intros [Hne ([k' v] & -> & Hin)]. split; [done|].
    apply elem_of_map_to_list in Hin. eauto.
  - intros [Hne [v Hv]]. split; [done|].
    exists (k, v). split; [done|]. by apply elem_of_map_to_list.
Qed.

(** The second loop keeps what it had, and appends the keys that have a
    value, in the order given, up to ten dimensions in all. *)
Lemma append_dimensions_spec (mTags : gmap string string)
    (keys : list string) :
  ∀ dimensions : list Dimension.t,
    append_dimensions mTags keys dimensions =
      dimensions ++
      take (MaxDimensions - length dimensions)
        (dimension_of mTags <$> filter (has_value mTags) keys).
Proof.
  induction keys as [|k keys IH]; intros dimensions;
    cbn [append_dimensions].
  - by rewrite filter_nil, fmap_nil, take_nil, app_nil_r.
  - destruct (MaxDimensions <=? length dimensions) eqn:Hfull.
    + apply Nat.leb_le in Hfull.
      replace (MaxDimensions - length dimensions) with 0 by lia.
      by rewrite take_0, app_nil_r.
    + apply Nat.leb_gt in Hfull.
      destruct (String.eqb_spec (default "" (mTags !! k)) "") as [Hv|Hv].
      * rewrite filter_cons_False by (unfold has_value; naive_solver).
        apply IH.
      * rewrite filter_cons_True by done.
        rewrite IH, length_app, <- app_assoc. simpl. f_equal.
        replace (MaxDimensions - length dimensions)
          with (S (MaxDimensions - (length dimensions + 1))) by lia.
        done.
Qed.

Lemma BuildDimensions_spec (mTags : gmap string string) :
  BuildDimensions mTags =
    host_dimension mTags ++
    take (MaxDimensions - length (host_dimension mTags))
      (dimension_of mTags <$>
         filter (has_value mTags) (sort.Strings (other_keys mTags))).
Proof. apply append_dimensions_spec. Qed.

(** A dimension list never has more than ten entries. *)
Lemma BuildDimensions_length (mTags : gmap string string) :
  length (BuildDimensions mTags) ≤ MaxDimensions.
Proof.
  rewrite BuildDimensions_spec, length_app, length_take.
  assert (length (host_dimension mTags) ≤ 1).
  { unfold host_dimension. destruct (mTags !! "host"); simpl; lia. }
  unfold MaxDimensions in *. lia.
Qed.

(** Only the ["host"] dimension can carry an empty value. *)
Lemma BuildDimensions_empty_value (mTags : gmap string string)
    (d : Dimension.t) :
  d ∈ BuildDimensions mTags → Dimension.Value d = "" →
  Dimension.Name d = "host" ∧ mTags !! "host" = Some "".
Proof.
  rewrite BuildDimensions_spec, elem_of_app. intros [Hhost|Hrest] Hempty.
  - unfold host_dimension in Hhost.
    destruct (mTags !! "host") as [host|]; [|by apply elem_of_nil in Hhost].
    apply list_elem_of_singleton in Hhost as ->. simpl in *. by subst.
  - apply elem_of_take in Hrest as (i & Hrest & _).
    apply list_elem_of_lookup_2 in Hrest.
    apply list_elem_of_fmap in Hrest as (k & -> & Hk).
    apply list_elem_of_filter in Hk as [Hk _]. by destruct Hk.
Qed.

(** When the ["host"] tag is absent or has a value, the code selects the
    dimensions as the specification describes. *)
Lemma BuildDimensions_select (mTags : gmap string string) :
  mTags !! "host" ≠ Some "" → BuildDimensions mTags = select_spec mTags.
Proof.
  intros Hhost. rewrite BuildDimensions_spec. unfold select_spec.
  assert (host_dimension mTags =
          if decide (has_value mTags "host") then [dimension_of mTags "host"]
          else []) as ->; [|done].
  unfold host_dimension.
  destruct (decide (has_value mTags "host")) as [Hv|Hv];
    unfold has_value, dimension_of in *;
    destruct (mTags !! "host") as [host|]; simpl in *; try done.
  destruct (decide (host = "")) as [->|]; done.
Qed.

(** C4: a ["host"] tag with an empty value is emitted as a dimension,
    although the other keys are skipped when their value is empty. *)
Theorem empty_host_value_is_emitted :
  BuildDimensions {[ "host" := "" ]} =
    [ {| Dimension.Name := "host"; Dimension.Value := "" |} ] ∧
  BuildDimensions (list_to_map [("host", ""); ("rack", ""); ("az", "a1")]) =
    [ {| Dimension.Name := "host"; Dimension.Value := "" |};
      {| Dimension.Name := "az"; Dimension.Value := "a1" |} ].
Proof. split; by vm_compute. Qed.

(** C7: for tags [{host:"h1", zone:"z1", az:"a1"}] the order is
    [host, az, zone], as the specification says; with an empty ["host"]
    value the code still puts the host dimension first, where the
    specification's selector leaves it out. *)
Theorem empty_host_value_comes_first :
  BuildDimensions (list_to_map [("host", "h1"); ("zone", "z1"); ("az", "a1")])
    = [ {| Dimension.Name := "host"; Dimension.Value := "h1" |};
        {| Dimension.Name := "az"; Dimension.Value := "a1" |};
        {| Dimension.Name := "zone"; Dimension.Value := "z1" |} ] ∧
  BuildDimensions (list_to_map [("host", ""); ("zone", "z1"); ("az", "a1")])
    = [ {| Dimension.Name := "host"; Dimension.Value := "" |};
        {| Dimension.Name := "az"; Dimension.Value := "a1" |};
        {| Dimension.Name := "zone"; Dimension.Value := "z1" |} ] ∧
  select_spec (list_to_map [("host", ""); ("zone", "z1"); ("az", "a1")])
    = [ {| Dimension.Name := "az"; Dimension.Value := "a1" |};
        {| Dimension.Name := "zone"; Dimension.Value := "z1" |} ].
Proof. repeat split; by vm_compute. Qed.

(** ** The accumulators of [BuildMetricDatum] *)

Lemma foldl_invariant {A B : Type} (P : A → Prop) (f : A → B → A)
    (l : list B) :
  ∀ a, P a → (∀ a b, P a → P (f a b)) → P (foldl f a l).
Proof.
  induction l as [|b l IH]; intros a Ha Hstep; [done|].
  simpl. apply IH; auto.
Qed.

Lemma process_field_no_None (buildStatistic : bool) (storageResolution : Z)
    (point : Metric.t) (fields : gmap string field) (kv : string * GoValue) :
  no_None_kind fields →
  no_None_kind (process_field buildStatistic storageResolution point fields kv).
Proof.
  intros Hinv. unfold process_field.
  destruct (convert kv.2) as [val ok]. destruct ok; simpl; [|done].
  destruct (getStatisticType kv.1) as [sType fieldName].
  destruct (negb buildStatistic || bool_decide (sType = statisticTypeNone))
    eqn:Hraw.
  - intros key f. rewrite lookup_insert.
    destruct (decide (kv.1 = key)); [done | apply Hinv].
  - apply orb_false_iff in Hraw as [_ HsType].
    apply bool_decide_eq_false in HsType.
    destruct (fields !! fieldName) as [acc|] eqn:Hacc.
    + intros key f. rewrite lookup_insert.
      destruct (decide (fieldName = key)) as [<-|]; [|apply Hinv].
      destruct acc as [g|g]; simpl; [|done].
      intros [= <-]. unfold statisticField.addValue.
      rewrite decide_True by done. simpl.
      rewrite lookup_insert_ne by done. by eapply Hinv.
    + intros key f. rewrite lookup_insert.
      destruct (decide (fieldName = key)); [|apply Hinv].
      intros [= <-]. simpl. by rewrite lookup_singleton_ne.
Qed.

Lemma accumulate_no_None (buildStatistic highResolutionMetrics : bool)
    (point : Metric.t) (order : list (string * GoValue)) :
  no_None_kind
    (accumulate buildStatistic highResolutionMetrics point order).
Proof.
  unfold accumulate. apply foldl_invariant.
  - intros key f. by rewrite lookup_empty.
  - intros fields kv. apply process_field_no_None.
Qed.

Lemma suffixName_is_Some (f : statisticField.t) (sType : statisticType) :
  sType ≠ statisticTypeNone → is_Some (statisticField.suffixName f sType).
Proof. by destruct sType. Qed.

Lemma length_omap_total {A B : Type} (g : A → option B) (l : list A) :
  Forall (λ a, is_Some (g a)) l → length (omap g l) = length l.
Proof.
  induction 1 as [|a l [b Hb] _ IH]; [done|].
  cbn. rewrite Hb. cbn. f_equal. exact IH.
Qed.

(** C10: a statistic accumulator that [BuildMetricDatum]'s first loop can
    hold (after any sequence of fields) has no value under
    [statisticTypeNone], and [addValue] with that kind leaves it as it is;
    hence every round of the fallback loop of [buildDatum] names and
    appends its datum (the [default] case is never taken), and every
    fallback datum carries a suffixed name. *)
Theorem statistic_accumulator_has_no_None_kind
    (buildStatistic highResolutionMetrics : bool) (point : Metric.t)
    (order : list (string * GoValue)) (key : string)
    (f : statisticField.t) :
  accumulate buildStatistic highResolutionMetrics point order !! key =
    Some (StatisticField f) →
  statisticField.values f !! statisticTypeNone = None ∧
  (∀ value, statisticField.addValue f statisticTypeNone value = f) ∧
  Forall (λ entry, is_Some (statisticField.independentDatum f entry))
    (map_to_list (statisticField.values f)) ∧
  (statisticField.hasAllFields f = false →
   length (statisticField.buildDatum f) = size (statisticField.values f) ∧
   ∀ d, d ∈ statisticField.buildDatum f →
     ∃ sType value suffix,
       statisticField.values f !! sType = Some value ∧
       (sType, suffix) ∈
         [(statisticTypeMin, "min"); (statisticTypeMax, "max");
          (statisticTypeSum, "sum"); (statisticTypeCount, "count")] ∧
       MetricDatum.MetricName d =
         Some (strings.Join
                 [statisticField.metricName f; statisticField.fieldName f;
                  suffix] "_") ∧
       MetricDatum.Value d = Some value).
Proof.
  intros Hf.
  pose proof (accumulate_no_None _ _ _ _ _ _ Hf) as Hnone.
  assert (Forall (λ entry, is_Some (statisticField.independentDatum f entry))
            (map_to_list (statisticField.values f))) as Hall.
  { apply Forall_forall. intros [sType value] Hin.
    apply elem_of_map_to_list in Hin.
    unfold statisticField.independentDatum. simpl.
    destruct (suffixName_is_Some f sType) as [name ->]; [|done].
    intros ->. congruence. }
  split; [done|]. split; [done|]. split; [done|].
  intros Hpart. unfold statisticField.buildDatum. rewrite Hpart. split.
  - rewrite length_omap_total by done. by rewrite length_map_to_list.
  - intros d Hd. apply list_elem_of_omap in Hd as ([sType value] & Hin & Hd).
    apply elem_of_map_to_list in Hin.
    unfold statisticField.independentDatum in Hd. simpl in Hd.
    destruct sType; simpl in Hd; [congruence| | | |];
      injection Hd as <-; simpl;
      eexists _, value, _; (split; [exact Hin|]);
      (split; [|done]); set_solver.
Qed.

Lemma statistic_accumulator_has_no_None_kind_witness :
  ∃ f,
    accumulate true false
      (sampleMetric [("x_min", VFloat64 1); ("x_sum", VInt 4)] [])
      [("x_sum", VInt 4); ("x_min", VFloat64 1)] !! "x" =
      Some (StatisticField f) ∧
    statisticField.values f !! statisticTypeNone = None ∧
    length (statisticField.buildDatum f) = 2.
Proof.
  eexists. split; [vm_compute; reflexivity|].
  match goal with
  | |- statisticField.values ?f !! _ = _ ∧ _ =>
      destruct (statistic_accumulator_has_no_None_kind true false
        (sampleMetric [("x_min", VFloat64 1); ("x_sum", VInt 4)] [])
        [("x_sum", VInt 4); ("x_min", VFloat64 1)] "x" f)
        as (Hnone & _ & _ & Hlen)
  end; [vm_compute; reflexivity|].
  split; [exact Hnone|].
  destruct (Hlen eq_refl) as [-> _]. reflexivity.
Defined.

(** ** What the first loop leaves in [fields] *)

Lemma accumulate_snoc (buildStatistic highResolutionMetrics : bool)
    (point : Metric.t) (order : list (string * GoValue))
    (kv : string * GoValue) :
  accumulate buildStatistic highResolutionMetrics point (order ++ [kv]) =
    process_field buildStatistic (storageResolutionOf highResolutionMetrics)
      point (accumulate buildStatistic highResolutionMetrics point order) kv.
Proof. unfold accumulate. by rewrite foldl_snoc. Qed.

Lemma stat_values_snoc (order : list (string * GoValue))
    (kv : string * GoValue) (baseName : string) :
  stat_values (order ++ [kv]) baseName =
    match contributes baseName kv with
    | Some (sType, val) => <[sType := val]> (stat_values order baseName)
    | None => stat_values order baseName
    end.
Proof. unfold stat_values. by rewrite foldl_snoc. Qed.

(** A plain field keeps the key of its name, whatever the suffixed fields
    of that base name and whatever the order: visited later they reach
    [valueField.addValue], which ignores them; visited earlier their
    accumulator is overwritten. *)
Lemma accumulate_plain_field (highResolutionMetrics : bool)
    (point : Metric.t) (order : list (string * GoValue))
    (k : string) (val : float) :
  NoDup order.*1 → plain_field order k val →
  accumulate true highResolutionMetrics point order !! k =
    Some (ValueField (valueFieldOf highResolutionMetrics point k val)).
Proof.
  intros Hnodup (Hkind & raw & Hin & Hconv). revert Hnodup Hin.
  induction order as [|[k' v'] order IH] using rev_ind; intros Hnodup Hin.
  { by apply elem_of_nil in Hin. }
  rewrite fmap_app in Hnodup. simpl in Hnodup.
  apply NoDup_app in Hnodup as (Hnodup & Hfresh & _).
  rewrite accumulate_snoc. unfold process_field. simpl.
  apply elem_of_app in Hin as [Hin|Hin].
  - assert (k' ≠ k) as Hne.
    { intros ->. apply (Hfresh k); [|set_solver].
      apply list_elem_of_fmap. by exists (k, raw). }
    specialize (IH Hnodup Hin).
    destruct (convert v') as [val' ok]. destruct ok; simpl; [|done].
    destruct (getStatisticType k') as [sType fieldName] eqn:Hk'.
    case_bool_decide as HsType; simpl.
    + by rewrite lookup_insert_ne.
    + destruct (decide (fieldName = k)) as [->|Hother].
      * rewrite IH, lookup_insert_eq. simpl.
        unfold valueField.addValue. by rewrite decide_False.
      * destruct (_ !! fieldName); by rewrite lookup_insert_ne.
  - apply list_elem_of_singleton in Hin as [= <- <-].
    rewrite Hconv. simpl.
    destruct (getStatisticType k) as [sType fieldName]. simpl in Hkind.
    subst sType. rewrite bool_decide_eq_true_2 by done. simpl.
    by rewrite lookup_insert_eq.
Qed.

(** Without a plain field of that name, the key [baseName] holds the
    statistic accumulator of the values contributed so far. *)
Lemma accumulate_statistic (highResolutionMetrics : bool)
    (point : Metric.t) (order : list (string * GoValue))
    (baseName : string) :
  (∀ val, ¬ plain_field order baseName val) →
  accumulate true highResolutionMetrics point order !! baseName =
    if decide (stat_values order baseName = ∅) then None
    else Some (StatisticField
                 (statisticFieldOf highResolutionMetrics point baseName
                    (stat_values order baseName))).
Proof.
  induction order as [|[k v] order IH] using rev_ind; intros Hplain.
  { done. }
  rewrite accumulate_snoc, stat_values_snoc.
  assert (∀ val, ¬ plain_field order baseName val) as Hplain'.
  { intros val (Hkind & raw & Hin & Hconv). apply (Hplain val).
    split; [done|]. exists raw. split; [set_solver | done]. }
  specialize (IH Hplain'). clear Hplain'.
  unfold process_field, contributes. simpl.
  destruct (convert v) as [val ok] eqn:Hconv. destruct ok; simpl.
  2:{ by destruct (getStatisticType k). }
  destruct (getStatisticType k) as [sType fieldName] eqn:Hk.
  destruct (decide (sType = statisticTypeNone)) as [->|HsType].
  - rewrite (bool_decide_eq_true_2 (statisticTypeNone = _)) by done.
    rewrite (bool_decide_eq_false_2 (statisticTypeNone ≠ _)) by naive_solver.
    simpl.
    assert (k ≠ baseName) as Hne.
    { intros ->. apply (Hplain val). split; [by rewrite Hk|].
      exists v. split; [set_solver | done]. }
    by rewrite lookup_insert_ne.
  - rewrite (bool_decide_eq_false_2 (sType = _)) by done.
    rewrite (bool_decide_eq_true_2 (sType ≠ _)) by done.
    simpl.
    destruct (decide (fieldName = baseName)) as [->|Hother].
    + rewrite bool_decide_eq_true_2 by done.
      rewrite decide_False by apply insert_non_empty.
      rewrite IH. case_decide as Hempty.
      * rewrite lookup_insert_eq, Hempty. by rewrite insert_empty.
      * rewrite lookup_insert_eq. simpl.
        unfold statisticField.addValue. by rewrite decide_True.
    + rewrite bool_decide_eq_false_2 by done.
      destruct (_ !! fieldName); by rewrite lookup_insert_ne.
Qed.

Lemma suffix_inj (baseName : string) (sType sType' : statisticType) :
  baseName +:+ suffix sType = baseName +:+ suffix sType' → sType = sType'.
Proof.
  intros H. apply (inj (String.app baseName)) in H.
  by destruct sType, sType'.
Qed.

Lemma contributes_Some (baseName : string) (kv : string * GoValue)
    (sType : statisticType) (val : float) :
  contributes baseName kv = Some (sType, val) ↔
  sType ≠ statisticTypeNone ∧ kv.1 = baseName +:+ suffix sType ∧
  convert kv.2 = (val, true).
Proof.
  split.
  - unfold contributes. destruct (convert kv.2) as [val' ok].
    destruct (getStatisticType kv.1) as [sType' fieldName] eqn:Hk.
    destruct ok; simpl; [|done].
    case_bool_decide as HsType; simpl; [|done].
    case_bool_decide as Hbase; simpl; [|done].
    intros [= <- <-]. subst fieldName.
    split; [done|]. split; [|done]. by apply getStatisticType_inv.
  - intros (HsType & Hname & Hconv). unfold contributes.
    rewrite Hconv, Hname, getStatisticType_app by done.
    by rewrite !bool_decide_eq_true_2.
Qed.

(** The accumulated values are exactly the values of the suffixed fields
    of that base name. *)
Lemma stat_values_lookup (order : list (string * GoValue))
    (baseName : string) (sType : statisticType) (value : float) :
  NoDup order.*1 →
  stat_values order baseName !! sType = Some value ↔
  sType ≠ statisticTypeNone ∧
  ∃ raw, (baseName +:+ suffix sType, raw) ∈ order ∧
         convert raw = (value, true).
Proof.
  induction order as [|[k v] order IH] using rev_ind; intros Hnodup.
  { unfold stat_values. simpl. rewrite lookup_empty. split; [done|].
    intros (_ & raw & Hin & _). by apply elem_of_nil in Hin. }
  rewrite fmap_app in Hnodup. simpl in Hnodup.
  apply NoDup_app in Hnodup as (Hnodup & Hfresh & _).
  specialize (IH Hnodup).
  assert (∀ raw, (k, raw) ∉ order) as Hk.
  { intros raw Hin. apply (Hfresh k); [|by apply list_elem_of_singleton].
    apply list_elem_of_fmap. by exists (k, raw). }
  rewrite stat_values_snoc.
  destruct (contributes baseName (k, v)) as [[sType' val]|] eqn:Hc.
  - apply contributes_Some in Hc as (HsType' & Hname & Hconv).
    simpl in Hname, Hconv.
    destruct (decide (sType' = sType)) as [->|Hne].
    + rewrite lookup_insert_eq. split.
      * intros [= <-]. split; [done|]. exists v. split; [|done].
        rewrite Hname. apply elem_of_app. right.
        by apply list_elem_of_singleton.
      * intros (_ & raw & Hin & Hraw).
        apply elem_of_app in Hin as [Hin|Hin].
        -- rewrite <- Hname in Hin. by apply Hk in Hin.
        -- apply list_elem_of_singleton in Hin as [= _ ->]. congruence.
    + rewrite lookup_insert_ne by done. rewrite IH.
      split; intros (HsType & raw & Hin & Hraw); (split; [done|]);
        exists raw; (split; [|done]); [apply elem_of_app; by left|].
      apply elem_of_app in Hin as [Hin|Hin]; [done|].
      apply list_elem_of_singleton in Hin as [= Heq _].
      rewrite Hname in Heq. by apply suffix_inj in Heq.
  - rewrite IH.
    split; intros (HsType & raw & Hin & Hraw); (split; [done|]);
      exists raw; (split; [|done]); [apply elem_of_app; by left|].
    apply elem_of_app in Hin as [Hin|Hin]; [done|].
    apply list_elem_of_singleton in Hin as [= <- <-].
    assert (contributes baseName (baseName +:+ suffix sType, raw) =
            Some (sType, value)) as Hc'
      by (by apply contributes_Some).
    congruence.
Qed.

(** A visiting order of the metric's fields lists each field once. *)
Lemma range_order_lookup {V : Type} (m : gmap string V)
    (order : list (string * V)) (k : string) (v : V) :
  range_order m order → (k, v) ∈ order ↔ m !! k = Some v.
Proof.
  unfold range_order. intros ->. apply elem_of_map_to_list.
Qed.

Lemma range_order_NoDup {V : Type} (m : gmap string V)
    (order : list (string * V)) :
  range_order m order → NoDup order.*1.
Proof.
  unfold range_order. intros ->. apply NoDup_fst_map_to_list.
Qed.

Lemma stat_values_observed (point : Metric.t)
    (order : list (string * GoValue)) (baseName : string)
    (sType : statisticType) (value : float) :
  range_order (Metric.Fields point) order →
  stat_values order baseName !! sType = Some value ↔
  observed point baseName sType value.
Proof.
  intros Horder.
  rewrite stat_values_lookup by by eapply range_order_NoDup.
  unfold observed.
  by setoid_rewrite (range_order_lookup _ _ _ _ Horder).
Qed.

(** ** What the builders emit *)

Lemma int32_storageResolutionOf (highResolutionMetrics : bool) :
  int32 (storageResolutionOf highResolutionMetrics) =
    storageResolutionOf highResolutionMetrics.
Proof. by destruct highResolutionMetrics. Qed.

Lemma valueField_buildDatum (highResolutionMetrics : bool)
    (point : Metric.t) (k : string) (val : float) :
  buildDatum (valueFieldOf highResolutionMetrics point k val) =
    [rawDatum highResolutionMetrics point k val].
Proof.
  unfold buildDatum, valueField_cloudwatchField, valueField.buildDatum,
    rawDatum. simpl.
  by rewrite int32_storageResolutionOf.
Qed.

Lemma hasAllFields_true (f : statisticField.t) :
  statisticField.hasAllFields f = true ↔
  ∀ sType, sType ≠ statisticTypeNone →
    is_Some (statisticField.values f !! sType).
Proof.
  unfold statisticField.hasAllFields. cbv zeta.
  rewrite !andb_true_iff, !bool_decide_eq_true. split.
  - intros [[[Hmin Hmax] Hsum] Hcount] sType HsType. by destruct sType.
  - intros H. repeat split; by apply H.
Qed.

(** With the four kinds present, one statistic set and nothing else. *)
Lemma statisticField_buildDatum_all (highResolutionMetrics : bool)
    (point : Metric.t) (baseName : string)
    (values : gmap statisticType float) (min max sum count : float) :
  values !! statisticTypeMin = Some min →
  values !! statisticTypeMax = Some max →
  values !! statisticTypeSum = Some sum →
  values !! statisticTypeCount = Some count →
  buildDatum (statisticFieldOf highResolutionMetrics point baseName values) =
    [statisticSetDatum highResolutionMetrics point baseName
       min max sum count].
Proof.
  intros Hmin Hmax Hsum Hcount.
  unfold buildDatum, statisticField_cloudwatchField,
    statisticField.buildDatum.
  rewrite (proj2 (hasAllFields_true _)).
  - simpl. rewrite Hmin, Hmax, Hsum, Hcount. simpl.
    unfold statisticSetDatum. by rewrite int32_storageResolutionOf.
  - intros sType HsType. simpl. destruct sType; by eauto.
Qed.

(** With a kind missing, one independent datum for each kind present, and
    nothing else. *)
Lemma statisticField_buildDatum_some (highResolutionMetrics : bool)
    (point : Metric.t) (baseName : string)
    (values : gmap statisticType float) (missing : statisticType) :
  values !! statisticTypeNone = None →
  missing ≠ statisticTypeNone → values !! missing = None →
  let datums :=
    buildDatum (statisticFieldOf highResolutionMetrics point baseName values)
  in
  length datums = size values ∧
  ∀ d, d ∈ datums ↔
    ∃ sType value,
      values !! sType = Some value ∧
      d = independentDatumOf point baseName sType value.
Proof.
  intros Hnone Hmissing Hgap. cbv zeta.
  unfold buildDatum, statisticField_cloudwatchField,
    statisticField.buildDatum.
  assert (statisticField.hasAllFields
            (statisticFieldOf highResolutionMetrics point baseName values)
          = false) as ->.
  { apply not_true_iff_false. rewrite hasAllFields_true. intros Hall.
    destruct (Hall missing Hmissing) as [value Hvalue]. simpl in Hvalue.
    congruence. }
  simpl.
  assert (∀ sType value,
            values !! sType = Some value →
            statisticField.independentDatum
              (statisticFieldOf highResolutionMetrics point baseName values)
              (sType, value) =
              Some (independentDatumOf point baseName sType value)) as Hdatum.
  { intros sType value Hvalue.
    destruct sType; [congruence|..]; reflexivity. }
  split.
  - rewrite length_omap_total; [apply length_map_to_list|].
    apply Forall_forall. intros [sType value] Hin.
    apply elem_of_map_to_list in Hin. rewrite (Hdatum _ _ Hin). eauto.
  - intros d. rewrite list_elem_of_omap. split.
    + intros ([sType value] & Hin & Hd).
      apply elem_of_map_to_list in Hin. rewrite (Hdatum _ _ Hin) in Hd.
      injection Hd as <-. eauto.
    + intros (sType & value & Hvalue & ->). exists (sType, value).
      split; [by apply elem_of_map_to_list | by apply Hdatum].
Qed.

Lemma elem_of_concat {A : Type} (x : A) (ls : list (list A)) :
  x ∈ concat ls ↔ ∃ l, l ∈ ls ∧ x ∈ l.
Proof.
  induction ls as [|l ls IH]; simpl.
  - split; [by intros ?%elem_of_nil | by intros (l & ?%elem_of_nil & _)].
  - rewrite elem_of_app, IH. split.
    + intros [Hx|(l' & Hl' & Hx)]; [exists l | exists l'];
        (split; [|done]); [by left | by right].
    + intros (l' & Hl' & Hx).
      apply elem_of_cons in Hl' as [->|Hl']; [by left | right; eauto].
Qed.

(** The datums of a metric are those of the accumulators left in
    [fields]. *)
Lemma flatten_elem_of (fields : gmap string field) (d : MetricDatum.t) :
  d ∈ flatten fields ↔
  ∃ key acc, fields !! key = Some acc ∧ d ∈ buildDatum acc.
Proof.
  unfold flatten. rewrite elem_of_concat. split.
  - intros (l & Hl & Hd).
    apply list_elem_of_fmap in Hl as ([key acc] & -> & Hin).
    apply elem_of_map_to_list in Hin. eauto.
  - intros (key & acc & Hacc & Hd). exists (buildDatum acc).
    split; [|done]. apply list_elem_of_fmap. exists (key, acc).
    split; [done | by apply elem_of_map_to_list].
Qed.

(** ** The datums of a base name *)

Lemma observed_not_None (point : Metric.t) (baseName : string)
    (sType : statisticType) (value : float) :
  observed point baseName sType value → sType ≠ statisticTypeNone.
Proof. by intros [? _]. Qed.

(** When no plain field of the metric bears the name [baseName], the key
    [baseName] holds a statistic accumulator as soon as a kind is observed
    for it, with exactly the observed values. *)
Lemma accumulate_observed (highResolutionMetrics : bool)
    (point : Metric.t) (order : list (string * GoValue))
    (baseName : string) :
  range_order (Metric.Fields point) order →
  (∀ val, ¬ plain_field order baseName val) →
  ∃ values : gmap statisticType float,
    (∀ sType value,
       values !! sType = Some value ↔
       observed point baseName sType value) ∧
    accumulate true highResolutionMetrics point order !! baseName =
      if decide (values = ∅) then None
      else Some (StatisticField
                   (statisticFieldOf highResolutionMetrics point baseName
                      values)).
Proof.
  intros Horder Hplain. exists (stat_values order baseName). split.
  - intros sType value. by apply stat_values_observed.
  - by apply accumulate_statistic.
Qed.

(** X14: without a plain field named [baseName]: if the four kinds are
    observed, the accumulator of [baseName] emits one statistic set, named
    after the metric and the base name, and nothing else. *)
Lemma statistic_set_when_all_observed (highResolutionMetrics : bool)
    (point : Metric.t) (order : list (string * GoValue))
    (baseName : string) (min max sum count : float) :
  range_order (Metric.Fields point) order →
  (∀ val, ¬ plain_field order baseName val) →
  observed point baseName statisticTypeMin min →
  observed point baseName statisticTypeMax max →
  observed point baseName statisticTypeSum sum →
  observed point baseName statisticTypeCount count →
  ∃ acc,
    accumulate true highResolutionMetrics point order !! baseName =
      Some acc ∧
    buildDatum acc =
      [statisticSetDatum highResolutionMetrics point baseName
         min max sum count] ∧
    statisticSetDatum highResolutionMetrics point baseName
      min max sum count
      ∈ BuildMetricDatumIn true highResolutionMetrics point order.
Proof.
  intros Horder Hplain Hmin Hmax Hsum Hcount.
  destruct (accumulate_observed highResolutionMetrics point order baseName
              Horder Hplain) as (values & Hvalues & Hacc).
  apply Hvalues in Hmin, Hmax, Hsum, Hcount.
  rewrite decide_False in Hacc by (intros ->; by rewrite lookup_empty in Hmin).
  eexists. split; [exact Hacc|].
  assert (buildDatum
            (StatisticField
               (statisticFieldOf highResolutionMetrics point baseName values))
          = [statisticSetDatum highResolutionMetrics point baseName
               min max sum count]) as Hbuild
    by (by apply statisticField_buildDatum_all).
  split; [exact Hbuild|].
  apply flatten_elem_of. eexists _, _. split; [exact Hacc|].
  rewrite Hbuild. by apply list_elem_of_singleton.
Qed.

(** X15: without a plain field named [baseName]: if a kind is not
    observed, the accumulator of [baseName] emits one independent datum
    for each observed kind, and nothing else. *)
Lemma independent_datums_when_one_missing (highResolutionMetrics : bool)
    (point : Metric.t) (order : list (string * GoValue))
    (baseName : string) (missing present : statisticType)
    (value : float) :
  range_order (Metric.Fields point) order →
  (∀ val, ¬ plain_field order baseName val) →
  missing ≠ statisticTypeNone →
  (∀ v, ¬ observed point baseName missing v) →
  observed point baseName present value →
  ∃ acc,
    accumulate true highResolutionMetrics point order !! baseName =
      Some acc ∧
    (∀ d, d ∈ buildDatum acc ↔
       ∃ sType v,
         observed point baseName sType v ∧
         d = independentDatumOf point baseName sType v) ∧
    (∀ d, d ∈ buildDatum acc →
       d ∈ BuildMetricDatumIn true highResolutionMetrics point order).
Proof.
  intros Horder Hplain Hmissing Hgap Hpresent.
  destruct (accumulate_observed highResolutionMetrics point order baseName
              Horder Hplain) as (values & Hvalues & Hacc).
  apply Hvalues in Hpresent.
  rewrite decide_False in Hacc
    by (intros ->; by rewrite lookup_empty in Hpresent).
  eexists. split; [exact Hacc|].
  destruct (statisticField_buildDatum_some highResolutionMetrics point
              baseName values missing) as [_ Hbuild]; [|done| |].
  { destruct (values !! statisticTypeNone) as [v|] eqn:Hv; [|done].
    apply Hvalues in Hv. by destruct Hv. }
  { destruct (values !! missing) as [v|] eqn:Hv; [|done].
    apply Hvalues in Hv. by apply Hgap in Hv. }
  split.
  - intros d. rewrite (Hbuild d).
    by setoid_rewrite Hvalues.
  - intros d Hd. apply flatten_elem_of. eauto.
Qed.

(** X16: with a plain field named [baseName], the key [baseName] holds
    its raw-value accumulator: the suffixed fields of that base name leave
    no datum, whatever the order. *)
Lemma raw_datum_only_when_plain_field (highResolutionMetrics : bool)
    (point : Metric.t) (order : list (string * GoValue))
    (baseName : string) (val : float) :
  range_order (Metric.Fields point) order →
  plain_field order baseName val →
  ∃ acc,
    accumulate true highResolutionMetrics point order !! baseName =
      Some acc ∧
    buildDatum acc = [rawDatum highResolutionMetrics point baseName val].
Proof.
  intros Horder Hplain. eexists. split.
  - apply accumulate_plain_field; [by eapply range_order_NoDup | done].
  - apply valueField_buildDatum.
Qed.

(** C3: a metric with the plain field ["x"] and the suffixed field
    ["x_min"], both convertible, yields the raw datum of ["x"] alone,
    whichever field the loop visits first: the two accumulators share the
    key ["x"] of the one map [fields]. *)
Theorem plain_field_displaces_suffixed_field :
  let point := sampleMetric [("x", VFloat64 9); ("x_min", VFloat64 1)] [] in
  BuildMetricDatumIn true false point
    [("x", VFloat64 9); ("x_min", VFloat64 1)] =
    [rawDatum false point "x" 9] ∧
  BuildMetricDatumIn true false point
    [("x_min", VFloat64 1); ("x", VFloat64 9)] =
    [rawDatum false point "x" 9] ∧
  MetricDatum.MetricName (rawDatum false point "x" 9) = Some "m_x".
Proof. repeat split; by vm_compute. Qed.

(** C1: all four kinds are observed for the base name ["x"], and yet, in
    each of the 120 orders of visiting the five fields, no statistic set is
    emitted: the plain field ["x"] takes the accumulator's place and the
    only datum is its raw value. *)
Theorem complete_statistic_set_displaced_by_plain_field :
  let fields :=
    [("x", VFloat64 9); ("x_min", VFloat64 1); ("x_max", VFloat64 3);
     ("x_sum", VFloat64 4); ("x_count", VFloat64 2)] in
  let point := sampleMetric fields [] in
  observed point "x" statisticTypeMin 1 ∧
  observed point "x" statisticTypeMax 3 ∧
  observed point "x" statisticTypeSum 4 ∧
  observed point "x" statisticTypeCount 2 ∧
  BuildMetricDatumIn true false point <$> permutations fields =
    replicate 120 [rawDatum false point "x" 9] ∧
  MetricDatum.StatisticValues (rawDatum false point "x" 9) = None.
Proof.
  cbv zeta. unfold observed.
  repeat (split; [split; [discriminate|]; eexists (VFloat64 _);
                  split; vm_compute; reflexivity|]).
  split; [|done].
  - vm_compute. reflexivity.
Qed.

(** ** Storage resolution *)



(** C2: with high resolution enabled, the independent datum built for an
    incomplete statistic set has no storage resolution, while the raw-value
    datum and the full statistic set of the same configuration carry 1. *)
Theorem independent_datum_has_no_storage_resolution :
  BuildMetricDatum true true (sampleMetric [("x_min", VFloat64 2)] []) =
    [ {| MetricDatum.MetricName := Some "m_x_min";
         MetricDatum.Dimensions := [];
         MetricDatum.Timestamp := Some sampleTime;
         MetricDatum.Value := Some 2%float;
         MetricDatum.StatisticValues := None;
         MetricDatum.StorageResolution := None |} ] ∧
  MetricDatum.StorageResolution <$>
    BuildMetricDatum true true (sampleMetric [("x", VFloat64 2)] []) =
    [Some 1%Z] ∧
  MetricDatum.StorageResolution <$>
    BuildMetricDatum true true
      (sampleMetric [("x_min", VFloat64 1); ("x_max", VFloat64 3);
                     ("x_sum", VFloat64 4); ("x_count", VFloat64 2)] []) =
    [Some 1%Z].
Proof. repeat split; by vm_compute. Qed.

(** ** Partitioning *)

Lemma wrap64_small (z : Z) : (- 2 ^ 63 ≤ z < 2 ^ 63)%Z → wrap64 z = z.
Proof.
  intros Hz. unfold wrap64.
  rewrite Z.mod_small; lia.
Qed.

Lemma slice_in_bounds {A : Type} (s : list A) (lo hi : Z) :
  (0 ≤ lo ≤ hi)%Z → (hi ≤ Z.of_nat (length s))%Z →
  slice s lo hi = Some (take (Z.to_nat (hi - lo)) (drop (Z.to_nat lo) s)).
Proof. intros Hlo Hhi. unfold slice. by rewrite decide_True. Qed.

(** The loop, started at index [i] for [n] more rounds, cuts the window
    [size*i .. min (size*(i+n)) len] of [datums] into [n] pieces. *)
Lemma partition_loop_spec (size : Z) (datums : list MetricDatum.t) (n : nat) :
  ∀ i : Z,
    (0 < size)%Z → (0 ≤ i)%Z →
    (size * (i + Z.of_nat n) < 2 ^ 63)%Z →
    (0 < n → (size * (i + Z.of_nat n - 1) < Z.of_nat (length datums))%Z) →
    ∃ partitions,
      partition_loop size datums i n = Some partitions ∧
      length partitions = n ∧
      concat partitions =
        take (Z.to_nat (Z.min (Z.of_nat (length datums))
                              (size * (i + Z.of_nat n)) - size * i))
             (drop (Z.to_nat (size * i)) datums) ∧
      ∀ (j : nat) p,
        partitions !! j = Some p →
        Z.of_nat (length p) =
          Z.min size (Z.of_nat (length datums) - size * (i + Z.of_nat j)).
Proof.
  induction n as [|n IH]; intros i Hsize Hi Hmax Hlast.
  - exists []. repeat split; [| by intros j p; rewrite lookup_nil].
    simpl. rewrite Z.add_0_r.
    replace (Z.to_nat _) with 0 by lia. by rewrite take_0.
  - assert (0 < S n) as HS by lia. specialize (Hlast HS).
    destruct (IH (i + 1)%Z) as (rest & Hrest & Hlen & Hcat & Hlens);
      [lia | lia | nia | intros Hn; replace (i + 1 + Z.of_nat n - 1)%Z
                           with (i + Z.of_nat (S n) - 1)%Z by lia; done |].
    cbn [partition_loop].
    rewrite (wrap64_small (i + 1)) by nia.
    rewrite (wrap64_small (size * i)) by nia.
    rewrite (wrap64_small (size * (i + 1))) by nia.
    set (len := Z.of_nat (length datums)) in *.
    set (hi := if decide (size * (i + 1) > len)%Z then len
               else (size * (i + 1))%Z).
    assert (hi = Z.min len (size * (i + 1))) as Hhi
      by (subst hi; case_decide; lia).
    rewrite slice_in_bounds by (subst len; nia).
    simpl. rewrite Hrest. simpl.
    eexists. split; [done|]. split; [simpl; lia|]. split.
    + simpl. rewrite Hcat.
      replace (drop (Z.to_nat (size * (i + 1))) datums)
        with (drop (Z.to_nat (hi - size * i))
                (drop (Z.to_nat (size * i)) datums)).
      * rewrite take_take_drop. f_equal. nia.
      * rewrite drop_drop.
        destruct (decide (size * (i + 1) ≤ len)%Z) as [Hle|Hgt].
        -- f_equal. nia.
        -- rewrite !drop_ge; [done | subst len; nia | subst len; nia].
    + intros [|j] p Hp; simpl in Hp.
      * injection Hp as <-. rewrite length_take, length_drop.
        subst len. nia.
      * rewrite (Hlens j p Hp). f_equal. lia.
Qed.

(** The number of rounds computed by [PartitionDatums]. *)
Lemma numberOfPartitions_spec (size len : Z) :
  (0 < size < 2 ^ 63)%Z → (0 ≤ len < 2 ^ 62)%Z →
  let n :=
    if decide (len `rem` size ≠ 0)%Z
    then wrap64 (wrap64 (len `quot` size) + 1)
    else wrap64 (len `quot` size) in
  (0 ≤ n)%Z ∧ (len ≤ size * n)%Z ∧ (size * n < len + size)%Z.
Proof.
  intros Hsize Hlen.
  rewrite Z.rem_mod_nonneg, Z.quot_div_nonneg by lia.
  pose proof (Z.div_mod len size) as Hdm.
  pose proof (Z.mod_pos_bound len size) as Hmod.
  assert (0 ≤ len `div` size ≤ len)%Z as Hq.
  { split; [apply Z.div_pos; lia|]. apply Z.div_le_upper_bound; nia. }
  rewrite (wrap64_small (len `div` size)) by lia.
  case_decide; [rewrite wrap64_small by lia|]; nia.
Qed.

Lemma PartitionDatums_spec (size : Z) (datums : list MetricDatum.t) :
  (0 < size < 2 ^ 63)%Z →
  (Z.of_nat (length datums) < 2 ^ 62)%Z →
  ∃ partitions,
    PartitionDatums size datums = Some partitions ∧
    concat partitions = datums ∧
    (∀ (j : nat) p,
       partitions !! j = Some p →
       (0 < Z.of_nat (length p) ≤ size)%Z ∧
       (S j < length partitions → Z.of_nat (length p) = size)) ∧
    (datums = [] → partitions = []).
Proof.
  intros Hsize Hlen.
  unfold PartitionDatums. rewrite decide_False by lia.
  pose proof (numberOfPartitions_spec size (Z.of_nat (length datums))
                Hsize ltac:(lia)) as Hn.
  cbv zeta in Hn.
  set (n := if decide (_ ≠ 0)%Z then _ else _) in *.
  destruct Hn as (Hn0 & Hcover & Htight).
  rewrite decide_False by lia.
  destruct (partition_loop_spec size datums (Z.to_nat n) 0)
    as (partitions & Hloop & Hcount & Hcat & Hlens);
    [lia | lia | | nia |].
  { destruct (decide (n ≤ 1)%Z); nia. }
  exists partitions. split; [done|]. split; [|split].
  - rewrite Hcat. rewrite Z.mul_0_r, drop_0.
    apply take_ge. lia.
  - intros j p Hp. pose proof (lookup_lt_Some _ _ _ Hp) as Hj.
    rewrite (Hlens j p Hp). split; [nia|]. intros Hnext. nia.
  - intros ->. apply nil_length_inv. rewrite Hcount.
    simpl length in *. nia.
Qed.

(** C8: for a positive [size], [PartitionDatums] returns chunks whose
    concatenation is the input, every chunk but the last of length exactly
    [size], the last one non-empty and of length at most [size]; no datums
    give no chunk, and 25 datums with size 20 give chunks of 20 and 5. *)
Theorem PartitionDatums_chunks :
  (∀ (size : Z) (datums : list MetricDatum.t),
     (0 < size < 2 ^ 63)%Z →
     (Z.of_nat (length datums) < 2 ^ 62)%Z →
     ∃ partitions,
       PartitionDatums size datums = Some partitions ∧
       concat partitions = datums ∧
       (∀ (j : nat) p,
          partitions !! j = Some p →
          (0 < Z.of_nat (length p) ≤ size)%Z ∧
          (S j < length partitions → Z.of_nat (length p) = size)) ∧
       (datums = [] → partitions = [])) ∧
  (∀ datums : list MetricDatum.t,
     length datums = 25 →
     map length <$> PartitionDatums 20 datums = Some [20; 5]).
Proof.
  split; [exact PartitionDatums_spec|].
  intros datums H25.
  destruct (PartitionDatums_spec 20%Z datums)
    as (ps & -> & Hcat & Hlens & _); [lia|lia|].
  simpl. f_equal.
  assert (length (concat ps) = 25) as Htotal by (by rewrite Hcat).
  destruct ps as [|p0 ps].
  { simpl in Htotal. lia. }
  pose proof (Hlens 0 p0 eq_refl) as [Hp0 Hp0'].
  destruct ps as [|p1 ps].
  { simpl in Htotal. rewrite length_app in Htotal. simpl in Htotal. lia. }
  pose proof (Hlens 1 p1 eq_refl) as [Hp1 Hp1'].
  simpl in Hp0'. specialize (Hp0' ltac:(lia)).
  destruct ps as [|p2 ps].
  { simpl in *. rewrite !length_app in Htotal. simpl in Htotal.
    repeat f_equal; lia. }
  pose proof (Hlens 2 p2 eq_refl) as [Hp2 _].
  simpl in Hp1'. specialize (Hp1' ltac:(lia)).
  simpl in Htotal. rewrite !length_app in Htotal. lia.
Qed.

Lemma PartitionDatums_chunks_witness :
  ∃ partitions,
    PartitionDatums 2 (replicate 5 sampleDatum) = Some partitions ∧
    concat partitions = replicate 5 sampleDatum ∧
    map length partitions = [2; 2; 1].
Proof.
  destruct PartitionDatums_chunks as [H _].
  destruct (H 2%Z (replicate 5 sampleDatum)) as (ps & Hps & Hcat & _);
    [lia | simpl; lia |].
  exists ps. split; [exact Hps|]. split; [exact Hcat|].
  vm_compute in Hps. injection Hps as <-. reflexivity.
Defined.

(** ** The write driver *)

Section WriteProperties.

Context {error : Type}.
Variable respond : list (@event error) → PutMetricDataInput.t → option error.

Lemma submitted_app (h1 h2 : list (@event error)) :
  submitted (h1 ++ h2) = submitted h1 ++ submitted h2.
Proof. unfold submitted. apply omap_app. Qed.

Lemma submitted_events_of (c : CloudWatch.t) sent (err : option error) :
  submitted (events_of c sent err) = sent.
Proof.
  unfold events_of. induction sent as [|p sent IH].
  - by destruct err.
  - unfold submitted in *. cbn. unfold params at 1. cbn. f_equal. exact IH.
Qed.

Lemma write_partitions_spec (c : CloudWatch.t)
    (partitions : list (list MetricDatum.t)) :
  ∀ history : list (@event error),
    ∃ sent rest err,
      partitions = sent ++ rest ∧
      write_partitions respond c partitions history =
        (err, history ++ events_of c sent err) ∧
      (∀ (j : nat) p,
         sent !! j = Some p →
         respond (history ++ events_of c (take j sent) None) (params c p) =
           if decide (S j = length sent) then err else None) ∧
      (err = None → rest = []) ∧
      (is_Some err → sent ≠ []).
Proof.
  induction partitions as [|p partitions IH]; intros history.
  - exists [], [], None. unfold events_of. simpl.
    rewrite app_nil_r. repeat split; try done.
  - cbn [write_partitions]. unfold WriteToCloudWatch.
    destruct (respond history (params c p)) as [e|] eqn:Hresp.
    + exists [p], partitions, (Some e). unfold events_of. simpl.
      repeat split; try done.
      * by rewrite <- app_assoc.
      * intros [|j] q Hq; [|done]. injection Hq as <-.
        simpl. by rewrite app_nil_r.
    + destruct (IH (history ++ [PutMetricData (params c p)]))
        as (sent & rest & err & -> & Hrun & Hresps & Hnone & Hsome).
      exists (p :: sent), rest, err. rewrite Hrun.
      repeat split; try done.
      * unfold events_of. simpl. by rewrite <- !app_assoc.
      * intros [|j] q Hq.
        -- injection Hq as <-. unfold events_of. simpl.
           rewrite app_nil_r, Hresp.
           case_decide as Hlast; [|done].
           destruct sent; [|done].
           destruct err as [e|]; [|done].
           exfalso. by apply Hsome.
        -- simpl in Hq. specialize (Hresps j q Hq).
           unfold events_of in *. simpl.
           rewrite app_nil_r in *. rewrite <- app_assoc in Hresps.
           simpl in Hresps. rewrite Hresps.
           repeat case_decide; try done; lia.
Qed.

(** C9: [Write] hands the partitions to the transport one after the
    other, in partition order; the calls made are a prefix [sent] of the
    partitions, every call before the last one of [sent] succeeded, and
    either all partitions were sent and [Write] returns [nil], or the last
    call of [sent] failed, [Write] returns exactly that error, and no later
    partition is submitted. *)
Theorem Write_stops_at_first_error (c : CloudWatch.t)
    (metrics : list Metric.t) (history : list (@event error)) :
  (Z.of_nat (length (collect c metrics)) < 2 ^ 62)%Z →
  ∃ partitions sent rest err history',
    PartitionDatums maxDatumsPerCall (collect c metrics) = Some partitions ∧
    Write respond c metrics history = Some (err, history') ∧
    partitions = sent ++ rest ∧
    history' = history ++ events_of c sent err ∧
    submitted history' = submitted history ++ sent ∧
    (∀ (j : nat) p,
       sent !! j = Some p →
       respond (history ++ events_of c (take j sent) None) (params c p) =
         if decide (S j = length sent) then err else None) ∧
    (err = None → rest = []) ∧
    (∀ e, err = Some e →
       ∃ sent' p,
         sent = sent' ++ [p] ∧
         respond (history ++ events_of c sent' None) (params c p) = Some e).
Proof.
  intros Hlen.
  destruct (PartitionDatums_spec maxDatumsPerCall (collect c metrics))
    as (partitions & Hps & _); [by unfold maxDatumsPerCall | done |].
  destruct (write_partitions_spec c partitions history)
    as (sent & rest & err & Hsplit & Hrun & Hresps & Hnone & Hsome).
  exists partitions, sent, rest, err, (history ++ events_of c sent err).
  split; [done|]. split; [unfold Write; rewrite Hps; simpl; by rewrite Hrun|].
  split; [done|]. split; [done|].
  split; [by rewrite submitted_app, submitted_events_of|].
  split; [done|]. split; [done|].
  intros e ->.
  destruct (exists_last (Hsome (mk_is_Some _ _ eq_refl)))
    as (sent' & p & ->).
  exists sent', p. split; [done|].
  specialize (Hresps (length sent') p).
  rewrite lookup_app_r, Nat.sub_diag in Hresps by lia.
  specialize (Hresps eq_refl).
  rewrite take_app_length in Hresps.
  rewrite length_app in Hresps. simpl in Hresps.
  by rewrite decide_True in Hresps by lia.
Qed.

End WriteProperties.

Lemma Write_stops_at_first_error_witness :
  ∃ err history',
    Write (λ _ _, Some "throttled") sampleCloudWatch
      [sampleMetric [("load", VFloat64 1)] []] [] = Some (err, history') ∧
    submitted history' =
      [BuildMetricDatum false false (sampleMetric [("load", VFloat64 1)] [])] ∧
    err = Some "throttled".
Proof.
  destruct (Write_stops_at_first_error (λ _ _, Some "throttled")
              sampleCloudWatch [sampleMetric [("load", VFloat64 1)] []] [])
    as (ps & sent & rest & err & h' & Hps & Hw & _ & Hh & _);
    [by vm_compute|].
  exists err, h'. split; [exact Hw|].
  vm_compute in Hw. injection Hw as <- <-. split; reflexivity.
Defined.

(** * Further properties of the plugin *)

(** ** Field classification *)

(** X1: [getStatisticType] and suffixing are inverse to each other: a base
    name followed by the suffix of a kind is classified as that kind with
    that base name (only the last suffix is stripped), and every name is
    its base name followed by the suffix of its kind, the base name being
    shorter by the length of the suffix. *)
Theorem getStatisticType_round_trip (name baseName : string)
    (sType : statisticType) :
  sType ≠ statisticTypeNone →
  getStatisticType (baseName +:+ suffix sType) = (sType, baseName) ∧
  (getStatisticType name).2 +:+ suffix (getStatisticType name).1 = name ∧
  String.length name =
    String.length (getStatisticType name).2 +
    String.length (suffix (getStatisticType name).1).
Proof.
  intros HsType. split; [by apply getStatisticType_app|].
  assert ((getStatisticType name).2 +:+ suffix (getStatisticType name).1
          = name) as Hname.
  { symmetry. apply getStatisticType_inv. by destruct (getStatisticType name). }
  split; [done|]. rewrite <- Hname at 1. apply string_length_app.
Qed.

Lemma getStatisticType_round_trip_witness :
  getStatisticType ("latency_min" +:+ suffix statisticTypeMax) =
    (statisticTypeMax, "latency_min") ∧
  (getStatisticType "latency_count").2 +:+
    suffix (getStatisticType "latency_count").1 = "latency_count".
Proof.
  destruct (getStatisticType_round_trip "latency_count" "latency_min"
              statisticTypeMax) as (H1 & H2 & _); [discriminate|].
  split; [exact H1 | exact H2].
Defined.

(** ** Value conversion *)

(** X2: what [convert] returns is sound: with [ok = true] the value is the
    one produced by the type switch and it is not NaN, not infinite, not
    strictly between 0 and the lower bound, and not above the upper bound;
    with [ok = false] the value is 0. *)
Theorem convert_sound (v : GoValue) (value : float) (ok : bool) :
  convert v = (value, ok) →
  (ok = true →
     type_switch v = Some value ∧
     PrimFloat.is_nan value = false ∧
     PrimFloat.is_infinity value = false ∧
     PrimFloat.ltb 0 value && PrimFloat.ltb value lower_bound = false ∧
     PrimFloat.ltb upper_bound value = false) ∧
  (ok = false → value = 0%float).
Proof.
  unfold convert. destruct (type_switch v) as [x|].
  - destruct (out_of_bounds x) eqn:Hb; intros [= <- <-];
      (split; [|done]); [done|].
    intros _. split; [done|].
    unfold out_of_bounds, math.IsNaN, math.IsInf0 in Hb.
    destruct (PrimFloat.is_nan x); [done|].
    destruct (PrimFloat.is_infinity x); [done|].
    destruct (PrimFloat.ltb 0 x && PrimFloat.ltb x lower_bound); [done|].
    destruct (PrimFloat.ltb upper_bound x); done.
  - intros [= <- <-]. split; done.
Qed.

Lemma convert_sound_witness :
  type_switch (VInt32 (-40)) = Some (-40)%float ∧
  PrimFloat.is_nan (-40) = false.
Proof.
  destruct (convert_sound (VInt32 (-40)) (-40)%float true eq_refl)
    as [H _].
  destruct (H eq_refl) as (H1 & H2 & _). split; [exact H1 | exact H2].
Defined.

(** X3: the remaining cases of the type switch: a boolean converts to 1
    or 0 and is always accepted; a [time.Time] converts as the [int64] of
    its Unix seconds; a string, a [nil], a [float32] and the integer types
    the switch does not name are dropped, whatever their value. *)
Theorem convert_other_types :
  (∀ t : bool, convert (VBool t) = (if t then 1%float else 0%float, true)) ∧
  (∀ t : time.Time, convert (VTime t) = convert (VInt64 (time.Unix t))) ∧
  (∀ v : GoValue,
     type_switch v = None → convert v = (0%float, false)) ∧
  (∀ v : GoValue,
     type_switch v = None ↔
     match v with
     | VInt _ | VInt32 _ | VInt64 _ | VUint64 _ | VFloat64 _ | VBool _
     | VTime _ => False
     | _ => True
     end).
Proof.
  split; [by intros []|]. split; [done|]. split.
  - intros v Hv. unfold convert. by rewrite Hv.
  - intros []; simpl; split; done.
Qed.

Lemma convert_other_types_witness :
  convert (VString "12.5") = (0%float, false) ∧
  convert (VFloat32 1) = (0%float, false).
Proof.
  destruct convert_other_types as (_ & _ & H & _).
  split; apply H; reflexivity.
Defined.

(** ** The two builders *)

Lemma statisticField_addValue_fields (f : statisticField.t)
    (sType : statisticType) (value : float) :
  statisticField.metricName (statisticField.addValue f sType value) =
    statisticField.metricName f ∧
  statisticField.fieldName (statisticField.addValue f sType value) =
    statisticField.fieldName f ∧
  statisticField.tags (statisticField.addValue f sType value) =
    statisticField.tags f ∧
  statisticField.timestamp (statisticField.addValue f sType value) =
    statisticField.timestamp f ∧
  statisticField.storageResolution (statisticField.addValue f sType value) =
    statisticField.storageResolution f.
Proof. unfold statisticField.addValue. by case_decide. Qed.

Lemma statisticField_addValues (adds : list (statisticType * float)) :
  ∀ f : statisticField.t,
    let f' := foldl (λ g kv, statisticField.addValue g kv.1 kv.2) f adds in
    statisticField.metricName f' = statisticField.metricName f ∧
    statisticField.fieldName f' = statisticField.fieldName f ∧
    statisticField.tags f' = statisticField.tags f ∧
    statisticField.timestamp f' = statisticField.timestamp f ∧
    statisticField.storageResolution f' =
      statisticField.storageResolution f ∧
    (NoDup adds.*1 →
     ∀ sType value,
       (sType, value) ∈ adds → sType ≠ statisticTypeNone →
       statisticField.values f' !! sType = Some value).
Proof.
  induction adds as [|[k v] adds IH] using rev_ind; intros f; cbv zeta.
  { repeat split; try done. intros _ ? ? ?%elem_of_nil. done. }
  rewrite foldl_snoc. simpl.
  destruct (IH f) as (Hm & Hf & Ht & Hts & Hr & Hvals).
  set (f' := foldl _ f adds) in *.
  destruct (statisticField_addValue_fields f' k v)
    as (Hm' & Hf' & Ht' & Hts' & Hr').
  repeat split; try congruence.
  intros Hnodup sType value Hin HsType.
  rewrite fmap_app in Hnodup. simpl in Hnodup.
  apply NoDup_app in Hnodup as (Hnodup & Hfresh & _).
  unfold statisticField.addValue.
  apply elem_of_app in Hin as [Hin|Hin].
  - assert (k ≠ sType) as Hne.
    { intros ->. apply (Hfresh sType); [|by apply list_elem_of_singleton].
      apply list_elem_of_fmap. by exists (sType, value). }
    case_decide; simpl; [rewrite lookup_insert_ne by done|]; by apply Hvals.
  - apply list_elem_of_singleton in Hin as [= <- <-].
    rewrite decide_True by done. simpl. apply lookup_insert_eq.
Qed.

(** X4: whatever a statistic accumulator held before, once the four
    kinds have been added to it, in any order, [buildDatum] yields exactly
    one datum: the statistic set of the four values added, named after the
    metric and the field, with the accumulator's dimensions, timestamp and
    storage resolution, and no scalar value. *)
Theorem statisticField_four_kinds (f : statisticField.t)
    (adds : list (statisticType * float)) (min max sum count : float) :
  adds ≡ₚ [(statisticTypeMin, min); (statisticTypeMax, max);
           (statisticTypeSum, sum); (statisticTypeCount, count)] →
  statisticField.buildDatum
    (foldl (λ g kv, statisticField.addValue g kv.1 kv.2) f adds) =
    [ {| MetricDatum.MetricName :=
           Some (statisticField.metricName f +:+ "_" +:+
                 statisticField.fieldName f);
         MetricDatum.Dimensions := BuildDimensions (statisticField.tags f);
         MetricDatum.Timestamp := Some (statisticField.timestamp f);
         MetricDatum.Value := None;
         MetricDatum.StatisticValues :=
           Some {| StatisticSet.Minimum := min;
                   StatisticSet.Maximum := max;
                   StatisticSet.Sum := sum;
                   StatisticSet.SampleCount := count |};
         MetricDatum.StorageResolution :=
           Some (int32 (statisticField.storageResolution f)) |} ].
Proof.
  intros Hperm.
  destruct (statisticField_addValues adds f)
    as (Hm & Hf & Ht & Hts & Hr & Hvals).
  set (f' := foldl _ f adds) in *.
  assert (NoDup adds.*1) as Hnodup.
  { rewrite Hperm. apply (bool_decide_unpack _). by vm_compute. }
  specialize (Hvals Hnodup).
  assert (statisticField.values f' !! statisticTypeMin = Some min) as Hmin
    by (apply Hvals; [rewrite Hperm; apply list_elem_of_In; simpl; tauto | done]).
  assert (statisticField.values f' !! statisticTypeMax = Some max) as Hmax
    by (apply Hvals; [rewrite Hperm; apply list_elem_of_In; simpl; tauto | done]).
  assert (statisticField.values f' !! statisticTypeSum = Some sum) as Hsum
    by (apply Hvals; [rewrite Hperm; apply list_elem_of_In; simpl; tauto | done]).
  assert (statisticField.values f' !! statisticTypeCount = Some count)
    as Hcount by (apply Hvals; [rewrite Hperm; apply list_elem_of_In; simpl; tauto | done]).
  unfold statisticField.buildDatum.
  rewrite (proj2 (hasAllFields_true f')).
  - rewrite Hmin, Hmax, Hsum, Hcount, Hm, Hf, Ht, Hts, Hr. done.
  - intros sType HsType. destruct sType; by eauto.
Qed.

Lemma statisticField_four_kinds_witness :
  length
    (statisticField.buildDatum
       (foldl (λ g kv, statisticField.addValue g kv.1 kv.2)
          (statisticFieldOf true (sampleMetric [] []) "latency"
             {[ statisticTypeSum := 7%float ]})
          [(statisticTypeMax, 3%float); (statisticTypeMin, 1%float);
           (statisticTypeSum, 4%float); (statisticTypeCount, 2%float)])) = 1.
Proof.
  rewrite (statisticField_four_kinds _ _ 1 3 4 2); [reflexivity|].
  apply perm_swap.
Defined.

(** X5: a raw-value accumulator ignores statistic values: after any
    sequence of [addValue] calls whose kinds are statistic kinds it is
    unchanged, and it always builds exactly one datum, the scalar value
    named after the metric and the field. *)
Theorem valueField_ignores_statistic_kinds (f : valueField.t)
    (adds : list (statisticType * float)) :
  Forall (λ kv, kv.1 ≠ statisticTypeNone) adds →
  foldl (λ g kv, valueField.addValue g kv.1 kv.2) f adds = f ∧
  valueField.buildDatum
    (foldl (λ g kv, valueField.addValue g kv.1 kv.2) f adds) =
    [ {| MetricDatum.MetricName :=
           Some (valueField.metricName f +:+ "_" +:+ valueField.fieldName f);
         MetricDatum.Dimensions := BuildDimensions (valueField.tags f);
         MetricDatum.Timestamp := Some (valueField.timestamp f);
         MetricDatum.Value := Some (valueField.value f);
         MetricDatum.StatisticValues := None;
         MetricDatum.StorageResolution :=
           Some (int32 (valueField.storageResolution f)) |} ].
Proof.
  intros Hadds.
  assert (foldl (λ g kv, valueField.addValue g kv.1 kv.2) f adds = f) as ->;
    [|done].
  induction Hadds as [|[k v] adds Hk _ IH]; [done|].
  simpl. unfold valueField.addValue at 2. by rewrite decide_False.
Qed.

Lemma valueField_ignores_statistic_kinds_witness :
  foldl (λ g kv, valueField.addValue g kv.1 kv.2)
    (valueFieldOf false (sampleMetric [] []) "latency" 42)
    [(statisticTypeMin, 1%float); (statisticTypeCount, 9%float)] =
    valueFieldOf false (sampleMetric [] []) "latency" 42.
Proof.
  apply (valueField_ignores_statistic_kinds
           (valueFieldOf false (sampleMetric [] []) "latency" 42)
           [(statisticTypeMin, 1%float); (statisticTypeCount, 9%float)]).
  repeat constructor; discriminate.
Defined.

(** ** Dimension selection, continued *)

Lemma StronglySorted_sublist {A : Type} (R : relation A) (l k : list A) :
  l `sublist_of` k → StronglySorted R k → StronglySorted R l.
Proof.
  induction 1 as [|x l k Hsub IH|x l k Hsub IH]; intros Hk.
  - constructor.
  - apply StronglySorted_inv in Hk as [Hk Hx].
    constructor; [by apply IH|].
    apply Forall_forall. intros y Hy. rewrite Forall_forall in Hx.
    apply Hx. by eapply elem_of_sublist.
  - apply StronglySorted_inv in Hk as [Hk _]. by apply IH.
Qed.

Lemma other_keys_NoDup (mTags : gmap string string) :
  NoDup (other_keys mTags).
Proof. apply NoDup_filter, NoDup_fst_map_to_list. Qed.

Lemma fmap_Name_dimension_of (mTags : gmap string string)
    (keys : list string) :
  Dimension.Name <$> (dimension_of mTags <$> keys) = keys.
Proof. induction keys as [|k keys IH]; [done | csimpl; by f_equal]. Qed.

(** The keys whose dimensions follow the host dimension. *)
Lemma BuildDimensions_names (mTags : gmap string string) :
  ∃ keys,
    BuildDimensions mTags =
      host_dimension mTags ++ (dimension_of mTags <$> keys) ∧
    keys `sublist_of` sort.Strings (other_keys mTags) ∧
    length (host_dimension mTags) + length keys ≤ MaxDimensions ∧
    Forall (has_value mTags) keys.
Proof.
  exists (take (MaxDimensions - length (host_dimension mTags))
            (filter (has_value mTags) (sort.Strings (other_keys mTags)))).
  split; [|split; [|split]].
  - rewrite BuildDimensions_spec. by rewrite fmap_take.
  - etrans; [apply sublist_take | apply sublist_filter].
  - rewrite length_take.
    assert (length (host_dimension mTags) ≤ 1).
    { unfold host_dimension. destruct (mTags !! "host"); simpl; lia. }
    unfold MaxDimensions. lia.
  - apply Forall_forall. intros k Hk.
    apply elem_of_take in Hk as (i & Hk & _).
    apply list_elem_of_lookup_2 in Hk.
    by apply list_elem_of_filter in Hk as [Hk _].
Qed.

(** X6: the dimensions built from any tag map are at most ten, each is a
    tag of the map with its value, no name occurs twice, and every
    dimension other than ["host"] has a non-empty value. *)
Theorem BuildDimensions_bounded_and_sound (mTags : gmap string string) :
  length (BuildDimensions mTags) ≤ 10 ∧
  (∀ d, d ∈ BuildDimensions mTags →
     mTags !! Dimension.Name d = Some (Dimension.Value d)) ∧
  NoDup (Dimension.Name <$> BuildDimensions mTags) ∧
  (∀ d, d ∈ BuildDimensions mTags →
     Dimension.Name d ≠ "host" → Dimension.Value d ≠ "").
Proof.
  destruct (BuildDimensions_names mTags) as (keys & -> & Hsub & Hlen & Hval).
  assert (∀ k, k ∈ keys → k ≠ "host" ∧ is_Some (mTags !! k)) as Hkeys.
  { intros k Hk. apply other_keys_spec.
    rewrite <- (proj2 (sort_Strings_sorted (other_keys mTags))).
    by eapply elem_of_sublist. }
  split; [|split; [|split]].
  - rewrite length_app, length_fmap. unfold MaxDimensions in Hlen. lia.
  - intros d [Hd|Hd]%elem_of_app.
    + unfold host_dimension in Hd.
      destruct (mTags !! "host") as [host|] eqn:Hhost;
        [|by apply elem_of_nil in Hd].
      by apply list_elem_of_singleton in Hd as ->.
    + apply list_elem_of_fmap in Hd as (k & -> & Hk).
      destruct (Hkeys k Hk) as [_ [v Hv]]. unfold dimension_of. simpl.
      by rewrite Hv.
  - rewrite fmap_app, fmap_Name_dimension_of. apply NoDup_app.
    split; [|split].
    + unfold host_dimension. destruct (mTags !! "host"); simpl;
        [apply NoDup_singleton | apply NoDup_nil_2].
    + intros name Hname Hk. apply Hkeys in Hk as [Hk _].
      unfold host_dimension in Hname.
      destruct (mTags !! "host"); simpl in Hname;
        [|by apply elem_of_nil in Hname].
      by apply list_elem_of_singleton in Hname.
    + assert (NoDup (sort.Strings (other_keys mTags))) as Hnodup.
      { rewrite (proj2 (sort_Strings_sorted (other_keys mTags))).
        apply other_keys_NoDup. }
      eapply sublist_NoDup; eauto.
  - intros d [Hd|Hd]%elem_of_app Hname.
    + unfold host_dimension in Hd.
      destruct (mTags !! "host") as [host|];
        [|by apply elem_of_nil in Hd].
      by apply list_elem_of_singleton in Hd as ->.
    + apply list_elem_of_fmap in Hd as (k & -> & Hk).
      rewrite Forall_forall in Hval. exact (Hval k Hk).
Qed.

(** X7: a ["host"] tag is always the first dimension, however many other
    tags there are, and the dimensions after it are in ascending order of
    their names. *)
Theorem BuildDimensions_host_first_rest_ascending
    (mTags : gmap string string) :
  (∀ host, mTags !! "host" = Some host →
     head (BuildDimensions mTags) =
       Some {| Dimension.Name := "host"; Dimension.Value := host |}) ∧
  ∃ rest,
    BuildDimensions mTags = host_dimension mTags ++ rest ∧
    StronglySorted String.le (Dimension.Name <$> rest) ∧
    Forall (λ d, Dimension.Name d ≠ "host") rest.
Proof.
  destruct (BuildDimensions_names mTags) as (keys & -> & Hsub & _ & _).
  split.
  - intros host Hhost. unfold host_dimension. by rewrite Hhost.
  - exists (dimension_of mTags <$> keys). split; [done|]. split.
    + rewrite fmap_Name_dimension_of.
      eapply StronglySorted_sublist; [exact Hsub|].
      apply sort_Strings_sorted.
    + apply Forall_forall. intros d Hd.
      apply list_elem_of_fmap in Hd as (k & -> & Hk). simpl.
      eapply elem_of_sublist in Hk; [|exact Hsub].
      rewrite (proj2 (sort_Strings_sorted (other_keys mTags))) in Hk.
      by apply other_keys_spec in Hk as [Hk _].
Qed.

Lemma BuildDimensions_host_first_rest_ascending_witness :
  head (BuildDimensions
          (list_to_map [("zone", "z1"); ("host", "h1"); ("az", "a1")])) =
    Some {| Dimension.Name := "host"; Dimension.Value := "h1" |}.
Proof.
  destruct (BuildDimensions_host_first_rest_ascending
              (list_to_map [("zone", "z1"); ("host", "h1"); ("az", "a1")]))
    as [H _].
  apply H. reflexivity.
Defined.

Lemma other_keys_length (mTags : gmap string string) :
  length (host_dimension mTags) + length (other_keys mTags) ≤ size mTags.
Proof.
  unfold host_dimension, other_keys.
  destruct (mTags !! "host") as [host|] eqn:Hhost; simpl.
  - rewrite <- (length_map_to_list mTags).
    rewrite <- (map_to_list_delete mTags "host" host Hhost). simpl.
    rewrite filter_cons_False by naive_solver.
    pose proof (length_filter (λ k, k ≠ "host")
                  (map_to_list (delete "host" mTags)).*1) as Hle.
    rewrite length_fmap in Hle.
    change (map fst ?l) with (l.*1). lia.
  - rewrite <- (length_map_to_list mTags).
    pose proof (length_filter (λ k, k ≠ "host") (map_to_list mTags).*1)
      as Hle.
    rewrite length_fmap in Hle.
    change (map fst ?l) with (l.*1). lia.
Qed.

(** X8: when the map has at most ten tags, no tag with a non-empty value
    is left out. *)
Theorem BuildDimensions_complete (mTags : gmap string string)
    (k v : string) :
  size mTags ≤ 10 → mTags !! k = Some v → v ≠ "" →
  {| Dimension.Name := k; Dimension.Value := v |} ∈ BuildDimensions mTags.
Proof.
  intros Hsize Hk Hv. rewrite BuildDimensions_spec.
  destruct (decide (k = "host")) as [->|Hne].
  - apply elem_of_app. left. unfold host_dimension. rewrite Hk.
    by apply list_elem_of_singleton.
  - apply elem_of_app. right. rewrite take_ge.
    + apply list_elem_of_fmap. exists k. split.
      * unfold dimension_of. by rewrite Hk.
      * apply list_elem_of_filter. split.
        -- unfold has_value. by rewrite Hk.
        -- rewrite (proj2 (sort_Strings_sorted (other_keys mTags))).
           apply other_keys_spec. eauto.
    + rewrite length_fmap.
      pose proof (length_filter (has_value mTags)
                    (sort.Strings (other_keys mTags))) as Hle.
      pose proof (other_keys_length mTags) as Hkeys.
      rewrite (Permutation_length
                 (proj2 (sort_Strings_sorted (other_keys mTags)))) in Hle.
      unfold MaxDimensions. lia.
Qed.

Lemma BuildDimensions_complete_witness :
  {| Dimension.Name := "zone"; Dimension.Value := "z1" |} ∈
    BuildDimensions (list_to_map [("zone", "z1"); ("host", "h1")]).
Proof.
  apply BuildDimensions_complete;
    [vm_compute; lia | reflexivity | discriminate].
Defined.

(** X9: the dimensions do not depend on the order in which the keys of
    the tag map are visited: whatever order the first loop collects them
    in, sorting makes the second loop build the same list. *)
Theorem BuildDimensions_visiting_order (mTags : gmap string string)
    (keys : list string) :
  keys ≡ₚ other_keys mTags →
  append_dimensions mTags (sort.Strings keys) (host_dimension mTags) =
    BuildDimensions mTags.
Proof.
  intros Hkeys. unfold BuildDimensions.
  by rewrite (sort_Strings_order_irrelevant _ _ Hkeys).
Qed.

Lemma BuildDimensions_visiting_order_witness :
  append_dimensions (list_to_map [("zone", "z1"); ("az", "a1")])
    (sort.Strings ["zone"; "az"])
    (host_dimension (list_to_map [("zone", "z1"); ("az", "a1")])) =
  BuildDimensions (list_to_map [("zone", "z1"); ("az", "a1")]).
Proof.
  apply BuildDimensions_visiting_order.
  apply (bool_decide_unpack _). by vm_compute.
Defined.

Lemma BuildDimensions_bounded_and_sound_witness :
  (list_to_map [("zone", "z1"); ("host", "h1")] : gmap string string)
    !! "zone" = Some "z1".
Proof.
  destruct (BuildDimensions_bounded_and_sound
              (list_to_map [("zone", "z1"); ("host", "h1")]))
    as (_ & H & _ & _).
  apply (H {| Dimension.Name := "zone"; Dimension.Value := "z1" |}).
  replace (BuildDimensions (list_to_map [("zone", "z1"); ("host", "h1")]))
    with [ {| Dimension.Name := "host"; Dimension.Value := "h1" |};
           {| Dimension.Name := "zone"; Dimension.Value := "z1" |} ]
    by (by vm_compute).
  apply list_elem_of_In. simpl. tauto.
Defined.

(** ** The metric aggregator, continued *)

Lemma convert_true_in_bounds (v : GoValue) (val : float) :
  convert v = (val, true) → out_of_bounds val = false.
Proof.
  unfold convert. destruct (type_switch v) as [x|]; [|done].
  destruct (out_of_bounds x) eqn:Hb; [done|]. by intros [= <-].
Qed.

(** Without aggregation, the key of a field holds its raw-value
    accumulator when the field converts, and nothing otherwise. *)
Lemma accumulate_raw (highResolutionMetrics : bool) (point : Metric.t)
    (order : list (string * GoValue)) (k : string) (acc : field) :
  NoDup order.*1 →
  accumulate false highResolutionMetrics point order !! k = Some acc ↔
  ∃ raw val,
    (k, raw) ∈ order ∧ convert raw = (val, true) ∧
    acc = ValueField (valueFieldOf highResolutionMetrics point k val).
Proof.
  induction order as [|[k' v'] order IH] using rev_ind; intros Hnodup.
  { unfold accumulate. simpl. rewrite lookup_empty. split; [done|].
    intros (raw & val & Hin & _). by apply elem_of_nil in Hin. }
  rewrite fmap_app in Hnodup. simpl in Hnodup.
  apply NoDup_app in Hnodup as (Hnodup & Hfresh & _).
  specialize (IH Hnodup).
  assert (∀ raw, (k', raw) ∉ order) as Hk'.
  { intros raw Hin. apply (Hfresh k'); [|by apply list_elem_of_singleton].
    apply list_elem_of_fmap. by exists (k', raw). }
  rewrite accumulate_snoc. unfold process_field. simpl.
  destruct (convert v') as [val' ok] eqn:Hconv. destruct ok; simpl.
  - destruct (getStatisticType k') as [sType fieldName]. simpl.
    rewrite lookup_insert. destruct (decide (k' = k)) as [->|Hne].
    + split.
      * intros [= <-]. exists v', val'. split; [|done].
        apply elem_of_app. right. by apply list_elem_of_singleton.
      * intros (raw & val & Hin & Hraw & ->).
        apply elem_of_app in Hin as [Hin|Hin]; [by apply Hk' in Hin|].
        apply list_elem_of_singleton in Hin as [= ->].
        rewrite Hconv in Hraw. by injection Hraw as ->.
    + rewrite IH. split; intros (raw & val & Hin & Hraw & ->);
        exists raw, val; (split; [|done]).
      * apply elem_of_app. by left.
      * apply elem_of_app in Hin as [Hin|Hin]; [done|].
        apply list_elem_of_singleton in Hin. congruence.
  - rewrite IH. split; intros (raw & val & Hin & Hraw & ->);
      exists raw, val; (split; [|done]).
    + apply elem_of_app. by left.
    + apply elem_of_app in Hin as [Hin|Hin]; [done|].
      apply list_elem_of_singleton in Hin as [= -> ->]. congruence.
Qed.

(** X10: with aggregation disabled, the datums of a metric are exactly
    the raw-value datums of its fields that convert, one for each, named
    after the metric and the field whether or not the name carries a
    statistic suffix; a field that does not convert leaves no datum. *)
Theorem BuildMetricDatum_without_statistics (highResolutionMetrics : bool)
    (point : Metric.t) (order : list (string * GoValue))
    (d : MetricDatum.t) :
  range_order (Metric.Fields point) order →
  d ∈ BuildMetricDatumIn false highResolutionMetrics point order ↔
  ∃ k raw val,
    Metric.Fields point !! k = Some raw ∧ convert raw = (val, true) ∧
    d = rawDatum highResolutionMetrics point k val.
Proof.
  intros Horder. pose proof (range_order_NoDup _ _ Horder) as Hnodup.
  unfold BuildMetricDatumIn. rewrite flatten_elem_of. split.
  - intros (k & acc & Hacc & Hd).
    apply (accumulate_raw _ _ _ _ _ Hnodup) in Hacc
      as (raw & val & Hin & Hraw & ->).
    change (d ∈ buildDatum
                  (valueFieldOf highResolutionMetrics point k val)) in Hd.
    rewrite valueField_buildDatum in Hd.
    apply list_elem_of_singleton in Hd as ->.
    exists k, raw, val. split; [|done].
    by apply (range_order_lookup _ _ _ _ Horder).
  - intros (k & raw & val & Hk & Hraw & ->).
    exists k, (ValueField (valueFieldOf highResolutionMetrics point k val)).
    split.
    + apply (accumulate_raw _ _ _ _ _ Hnodup). exists raw, val.
      split; [|done]. by apply (range_order_lookup _ _ _ _ Horder).
    + change (rawDatum highResolutionMetrics point k val ∈
                buildDatum (valueFieldOf highResolutionMetrics point k val)).
      rewrite valueField_buildDatum. by apply list_elem_of_singleton.
Qed.

Lemma BuildMetricDatum_without_statistics_witness :
  rawDatum false
    (sampleMetric [("load_max", VFloat64 7); ("name", VString "a")] [])
    "load_max" 7
  ∈ BuildMetricDatumIn false false
      (sampleMetric [("load_max", VFloat64 7); ("name", VString "a")] [])
      [("name", VString "a"); ("load_max", VFloat64 7)].
Proof.
  apply BuildMetricDatum_without_statistics.
  - unfold range_order. by vm_compute.
  - exists "load_max", (VFloat64 7), 7%float.
    split; [by vm_compute|]. split; reflexivity.
Defined.

Lemma option_eq_iff {A : Type} (o1 o2 : option A) (P : A → Prop) :
  (∀ a, o1 = Some a ↔ P a) → (∀ a, o2 = Some a ↔ P a) → o1 = o2.
Proof.
  intros H1 H2. apply option_eq. intros a. by rewrite H1, H2.
Qed.

Lemma stat_values_order (point : Metric.t)
    (order order' : list (string * GoValue)) (baseName : string) :
  range_order (Metric.Fields point) order →
  range_order (Metric.Fields point) order' →
  stat_values order baseName = stat_values order' baseName.
Proof.
  intros Horder Horder'. apply map_eq. intros sType.
  apply (option_eq_iff _ _ (observed point baseName sType));
    intros value; by apply stat_values_observed.
Qed.

Lemma plain_field_order (point : Metric.t)
    (order order' : list (string * GoValue)) (k : string) (val : float) :
  range_order (Metric.Fields point) order →
  range_order (Metric.Fields point) order' →
  plain_field order k val → plain_field order' k val.
Proof.
  intros Horder Horder' (Hkind & raw & Hin & Hraw).
  split; [done|]. exists raw. split; [|done].
  apply (range_order_lookup _ _ _ _ Horder').
  by apply (range_order_lookup _ _ _ _ Horder).
Qed.

Lemma plain_field_dec (point : Metric.t) (order : list (string * GoValue))
    (k : string) :
  range_order (Metric.Fields point) order →
  (∃ val, plain_field order k val) ∨ (∀ val, ¬ plain_field order k val).
Proof.
  intros Horder. unfold plain_field.
  destruct (decide ((getStatisticType k).1 = statisticTypeNone)) as [Hk|Hk];
    [|right; by intros val [? _]].
  destruct (Metric.Fields point !! k) as [raw|] eqn:Hraw.
  - destruct (convert raw) as [val ok] eqn:Hconv. destruct ok.
    + left. exists val. split; [done|]. exists raw. split; [|done].
      by apply (range_order_lookup _ _ _ _ Horder).
    + right. intros val' (_ & raw' & Hin & Hraw').
      apply (range_order_lookup _ _ _ _ Horder) in Hin. congruence.
  - right. intros val' (_ & raw' & Hin & Hraw').
    apply (range_order_lookup _ _ _ _ Horder) in Hin. congruence.
Qed.

(** X11: the accumulators that the first loop leaves in [fields], and so
    the datums of the metric, do not depend on the order in which [range]
    visits the metric's fields. *)
Theorem BuildMetricDatum_visiting_order
    (buildStatistic highResolutionMetrics : bool) (point : Metric.t)
    (order order' : list (string * GoValue)) :
  range_order (Metric.Fields point) order →
  range_order (Metric.Fields point) order' →
  accumulate buildStatistic highResolutionMetrics point order =
    accumulate buildStatistic highResolutionMetrics point order' ∧
  BuildMetricDatumIn buildStatistic highResolutionMetrics point order =
    BuildMetricDatumIn buildStatistic highResolutionMetrics point order'.
Proof.
  intros Horder Horder'.
  assert (accumulate buildStatistic highResolutionMetrics point order =
          accumulate buildStatistic highResolutionMetrics point order')
    as Hacc; [|split; [done|]; unfold BuildMetricDatumIn; by rewrite Hacc].
  pose proof (range_order_NoDup _ _ Horder) as Hnodup.
  pose proof (range_order_NoDup _ _ Horder') as Hnodup'.
  apply map_eq. intros k. destruct buildStatistic.
  - destruct (plain_field_dec point order k Horder) as [[val Hplain]|Hnone].
    + rewrite (accumulate_plain_field _ _ _ _ _ Hnodup Hplain).
      symmetry. apply accumulate_plain_field; [done|].
      exact (plain_field_order point order order' k val
               Horder Horder' Hplain).
    + rewrite (accumulate_statistic _ _ _ _ Hnone).
      rewrite accumulate_statistic.
      * by rewrite (stat_values_order point order order' k).
      * intros val Hplain. apply (Hnone val).
        exact (plain_field_order point order' order k val
                 Horder' Horder Hplain).
  - apply (option_eq_iff _ _
             (λ acc, ∃ raw val,
                Metric.Fields point !! k = Some raw ∧
                convert raw = (val, true) ∧
                acc = ValueField
                        (valueFieldOf highResolutionMetrics point k val)));
      intros acc.
    + rewrite (accumulate_raw _ _ _ _ _ Hnodup).
      by setoid_rewrite (range_order_lookup _ _ _ _ Horder).
    + rewrite (accumulate_raw _ _ _ _ _ Hnodup').
      by setoid_rewrite (range_order_lookup _ _ _ _ Horder').
Qed.

Lemma BuildMetricDatum_visiting_order_witness :
  BuildMetricDatumIn true true
    (sampleMetric [("a_min", VInt 1); ("a_max", VInt 2); ("b", VInt 3)] [])
    [("b", VInt 3); ("a_max", VInt 2); ("a_min", VInt 1)] =
  BuildMetricDatumIn true true
    (sampleMetric [("a_min", VInt 1); ("a_max", VInt 2); ("b", VInt 3)] [])
    [("a_min", VInt 1); ("b", VInt 3); ("a_max", VInt 2)].
Proof.
  apply BuildMetricDatum_visiting_order.
  - unfold range_order.
    replace (map_to_list _) with
      [("a_min", VInt 1); ("a_max", VInt 2); ("b", VInt 3)] by (by vm_compute).
    apply (reverse_Permutation
             [("a_min", VInt 1); ("a_max", VInt 2); ("b", VInt 3)]).
  - unfold range_order.
    replace (map_to_list _) with
      [("a_min", VInt 1); ("a_max", VInt 2); ("b", VInt 3)] by (by vm_compute).
    apply perm_skip, perm_swap.
Defined.

Lemma accumulate_accumulator_of
    (buildStatistic highResolutionMetrics : bool) (point : Metric.t)
    (order : list (string * GoValue)) (key : string) (acc : field) :
  accumulate buildStatistic highResolutionMetrics point order !! key =
    Some acc →
  accumulator_of point key acc.
Proof.
  revert key acc. unfold accumulate.
  apply (foldl_invariant
           (λ fields : gmap string field,
              ∀ key acc, fields !! key = Some acc →
                         accumulator_of point key acc)).
  - intros key acc. by rewrite lookup_empty.
  - intros fields [k v] Hinv key acc. unfold process_field. simpl.
    destruct (convert v) as [val ok] eqn:Hconv.
    destruct ok; simpl; [|apply Hinv].
    apply convert_true_in_bounds in Hconv.
    destruct (getStatisticType k) as [sType fieldName].
    destruct (negb buildStatistic || bool_decide (sType = statisticTypeNone))
      eqn:Hraw.
    + rewrite lookup_insert. destruct (decide (k = key)) as [<-|];
        [|apply Hinv].
      by intros [= <-].
    + apply orb_false_iff in Hraw as [_ HsType].
      apply bool_decide_eq_false in HsType.
      destruct (fields !! fieldName) as [old|] eqn:Hold;
        rewrite lookup_insert;
        (destruct (decide (fieldName = key)) as [<-|]; [|apply Hinv]).
      * intros [= <-]. specialize (Hinv _ _ Hold).
        destruct old as [f|f]; simpl in *.
        -- destruct Hinv as (Hm & Hf & Ht & Hts & Hvals).
           unfold statisticField.addValue. rewrite decide_True by done.
           simpl. repeat (split; [done|]).
           intros k' v' Hk'. destruct (decide (sType = k')) as [<-|Hne].
           ++ rewrite lookup_insert_eq in Hk'. by injection Hk' as <-.
           ++ rewrite lookup_insert_ne in Hk' by done. by apply Hvals.
        -- unfold valueField.addValue. by rewrite decide_False.
      * intros [= <-]. simpl. repeat (split; [done|]).
        intros k' v' Hk'. by apply lookup_singleton_Some in Hk' as [<- <-].
Qed.

Lemma statisticField_buildDatum_elem (f : statisticField.t)
    (d : MetricDatum.t) :
  d ∈ statisticField.buildDatum f →
  MetricDatum.Dimensions d = BuildDimensions (statisticField.tags f) ∧
  MetricDatum.Timestamp d = Some (statisticField.timestamp f) ∧
  ((MetricDatum.Value d = None ∧
    MetricDatum.MetricName d =
      Some (statisticField.metricName f +:+ "_" +:+
            statisticField.fieldName f) ∧
    ∃ min max sum count,
      statisticField.values f !! statisticTypeMin = Some min ∧
      statisticField.values f !! statisticTypeMax = Some max ∧
      statisticField.values f !! statisticTypeSum = Some sum ∧
      statisticField.values f !! statisticTypeCount = Some count ∧
      MetricDatum.StatisticValues d =
        Some {| StatisticSet.Minimum := min;
                StatisticSet.Maximum := max;
                StatisticSet.Sum := sum;
                StatisticSet.SampleCount := count |}) ∨
   (MetricDatum.StatisticValues d = None ∧
    ∃ sType value,
      sType ≠ statisticTypeNone ∧
      statisticField.values f !! sType = Some value ∧
      MetricDatum.Value d = Some value ∧
      MetricDatum.MetricName d =
        Some (statisticField.metricName f +:+ "_" +:+
              statisticField.fieldName f +:+ "_" +:+ kindName sType))).
Proof.
  unfold statisticField.buildDatum.
  destruct (statisticField.hasAllFields f) eqn:Hall.
  - intros ->%list_elem_of_singleton. simpl.
    split; [done|]. split; [done|]. left.
    split; [done|]. split; [done|].
    pose proof (proj1 (hasAllFields_true f) Hall) as Hall'.
    clear Hall. rename Hall' into Hall.
    destruct (Hall statisticTypeMin) as [min Hmin]; [done|].
    destruct (Hall statisticTypeMax) as [max Hmax]; [done|].
    destruct (Hall statisticTypeSum) as [sum Hsum]; [done|].
    destruct (Hall statisticTypeCount) as [count Hcount]; [done|].
    exists min, max, sum, count. by rewrite Hmin, Hmax, Hsum, Hcount.
  - intros ([sType value] & Hin & Hd)%list_elem_of_omap.
    apply elem_of_map_to_list in Hin.
    unfold statisticField.independentDatum in Hd. simpl in Hd.
    destruct sType; simpl in Hd; [done|..]; injection Hd as <-; simpl;
      (split; [done|]); (split; [done|]); right; (split; [done|]);
      eexists _, value; (split; [|split; [exact Hin|split; [done|]]]);
      done.
Qed.

(** X12: every datum of a metric carries the metric's timestamp and the
    dimensions selected from the metric's tags, a name that begins with
    the metric's name and an underscore, and exactly one of a scalar value
    and a statistic set. *)
Theorem BuildMetricDatum_datum_shape
    (buildStatistic highResolutionMetrics : bool) (point : Metric.t)
    (order : list (string * GoValue)) (d : MetricDatum.t) :
  d ∈ BuildMetricDatumIn buildStatistic highResolutionMetrics point order →
  MetricDatum.Timestamp d = Some (Metric.Time point) ∧
  MetricDatum.Dimensions d = BuildDimensions (Metric.Tags point) ∧
  (∃ rest, MetricDatum.MetricName d =
             Some (Metric.Name point +:+ "_" +:+ rest)) ∧
  (MetricDatum.Value d = None ↔ is_Some (MetricDatum.StatisticValues d)).
Proof.
  intros (key & acc & Hacc & Hd)%flatten_elem_of.
  apply accumulate_accumulator_of in Hacc.
  destruct acc as [f|f]; simpl in Hacc, Hd.
  - destruct Hacc as (Hm & Hf & Ht & Hts & _).
    apply statisticField_buildDatum_elem in Hd as (Hdim & Htime & Hd).
    rewrite Htime, Hdim, Hts, Ht. split; [done|]. split; [done|].
    destruct Hd as [(Hv & Hn & mn & mx & sm & ct & _ & _ & _ & _ & Hs)
                   |(Hs & sType & value & _ & _ & Hv & Hn)];
      rewrite Hn, Hv, Hs, Hm.
    + split; [eauto|]. split; [eauto | done].
    + split; [eauto|]. split; [done | by intros [? ?]].
  - destruct Hacc as (Hm & Hf & Ht & Hts & _).
    unfold valueField.buildDatum in Hd.
    apply list_elem_of_singleton in Hd as ->. simpl.
    rewrite Hm, Ht, Hts. split; [done|]. split; [done|].
    split; [eauto|]. split; [done | by intros [? ?]].
Qed.

Lemma BuildMetricDatum_datum_shape_witness :
  MetricDatum.Timestamp
    (independentDatumOf (sampleMetric [("a_sum", VInt 5)] []) "a"
       statisticTypeSum 5) = Some sampleTime.
Proof.
  apply (BuildMetricDatum_datum_shape true false
           (sampleMetric [("a_sum", VInt 5)] []) [("a_sum", VInt 5)]).
  replace (BuildMetricDatumIn true false _ _)
    with [independentDatumOf (sampleMetric [("a_sum", VInt 5)] []) "a"
            statisticTypeSum 5] by (by vm_compute).
  by apply list_elem_of_singleton.
Defined.

(** X13: every number that a datum of a metric carries, as its scalar
    value or in its statistic set, passed the range check of [convert]:
    it is not NaN, not infinite, not strictly between 0 and the lower
    bound and not above the upper bound. *)
Theorem BuildMetricDatum_values_in_range
    (buildStatistic highResolutionMetrics : bool) (point : Metric.t)
    (order : list (string * GoValue)) (d : MetricDatum.t) :
  d ∈ BuildMetricDatumIn buildStatistic highResolutionMetrics point order →
  (∀ value, MetricDatum.Value d = Some value →
     out_of_bounds value = false) ∧
  (∀ s, MetricDatum.StatisticValues d = Some s →
     out_of_bounds (StatisticSet.Minimum s) = false ∧
     out_of_bounds (StatisticSet.Maximum s) = false ∧
     out_of_bounds (StatisticSet.Sum s) = false ∧
     out_of_bounds (StatisticSet.SampleCount s) = false).
Proof.
  intros (key & acc & Hacc & Hd)%flatten_elem_of.
  apply accumulate_accumulator_of in Hacc.
  destruct acc as [f|f]; simpl in Hacc, Hd.
  - destruct Hacc as (_ & _ & _ & _ & Hvals).
    apply statisticField_buildDatum_elem in Hd as (_ & _ & Hd).
    destruct Hd as [(Hv & _ & mn & mx & sm & ct & Hmn & Hmx & Hsm & Hct & Hs)
                   |(Hs & sType & value & _ & Hvalue & Hv & _)];
      rewrite Hv, Hs.
    + split; [done|]. intros s [= <-]. simpl.
      repeat split; by eapply Hvals.
    + split; [|done]. intros ? [= <-]. by eapply Hvals.
  - destruct Hacc as (_ & _ & _ & _ & Hval).
    unfold valueField.buildDatum in Hd.
    apply list_elem_of_singleton in Hd as ->. simpl.
    split; [by intros ? [= <-] | done].
Qed.

Lemma BuildMetricDatum_values_in_range_witness :
  out_of_bounds 5 = false.
Proof.
  destruct (BuildMetricDatum_values_in_range true false
              (sampleMetric [("a_sum", VInt 5)] []) [("a_sum", VInt 5)]
              (independentDatumOf (sampleMetric [("a_sum", VInt 5)] []) "a"
                 statisticTypeSum 5)) as [H _].
  - replace (BuildMetricDatumIn true false _ _)
      with [independentDatumOf (sampleMetric [("a_sum", VInt 5)] []) "a"
              statisticTypeSum 5] by (by vm_compute).
    by apply list_elem_of_singleton.
  - apply (H 5%float). reflexivity.
Defined.

Lemma statistic_set_when_all_observed_witness :
  let point :=
    sampleMetric [("a_min", VInt 1); ("a_max", VInt 3);
                  ("a_sum", VInt 4); ("a_count", VInt 2)] [] in
  statisticSetDatum true point "a" 1 3 4 2
  ∈ BuildMetricDatumIn true true point (map_to_list (Metric.Fields point)).
Proof.
  cbv zeta.
  destruct (statistic_set_when_all_observed true
              (sampleMetric [("a_min", VInt 1); ("a_max", VInt 3);
                             ("a_sum", VInt 4); ("a_count", VInt 2)] [])
              (map_to_list
                 (Metric.Fields
                    (sampleMetric [("a_min", VInt 1); ("a_max", VInt 3);
                                   ("a_sum", VInt 4); ("a_count", VInt 2)]
                       [])))
              "a" 1 3 4 2) as (acc & _ & _ & Hin).
  - unfold range_order. reflexivity.
  - intros val (_ & raw & Hin & _). vm_compute in Hin.
    repeat (apply elem_of_cons in Hin as [[=]|Hin]).
    by apply elem_of_nil in Hin.
  - split; [discriminate|]. exists (VInt 1). split; by vm_compute.
  - split; [discriminate|]. exists (VInt 3). split; by vm_compute.
  - split; [discriminate|]. exists (VInt 4). split; by vm_compute.
  - split; [discriminate|]. exists (VInt 2). split; by vm_compute.
  - exact Hin.
Defined.

Lemma independent_datums_when_one_missing_witness :
  let point := sampleMetric [("a_min", VInt 1); ("a_max", VInt 3)] [] in
  ∃ acc,
    accumulate true false point (map_to_list (Metric.Fields point)) !! "a" =
      Some acc ∧
    independentDatumOf point "a" statisticTypeMax 3 ∈ buildDatum acc.
Proof.
  cbv zeta.
  destruct (independent_datums_when_one_missing false
              (sampleMetric [("a_min", VInt 1); ("a_max", VInt 3)] [])
              (map_to_list
                 (Metric.Fields
                    (sampleMetric [("a_min", VInt 1); ("a_max", VInt 3)] [])))
              "a" statisticTypeSum statisticTypeMax 3)
    as (acc & Hacc & Hbuild & _).
  - unfold range_order. reflexivity.
  - intros val (_ & raw & Hin & _). vm_compute in Hin.
    repeat (apply elem_of_cons in Hin as [[=]|Hin]).
    by apply elem_of_nil in Hin.
  - discriminate.
  - intros v (_ & raw & Hraw & _). vm_compute in Hraw. discriminate.
  - split; [discriminate|]. exists (VInt 3). split; by vm_compute.
  - exists acc. split; [exact Hacc|]. apply Hbuild.
    exists statisticTypeMax, 3%float. split; [|reflexivity].
    split; [discriminate|]. exists (VInt 3). split; by vm_compute.
Defined.

Lemma raw_datum_only_when_plain_field_witness :
  let point := sampleMetric [("a", VInt 7); ("a_max", VInt 3)] [] in
  ∃ acc,
    accumulate true false point (map_to_list (Metric.Fields point)) !! "a" =
      Some acc ∧
    buildDatum acc = [rawDatum false point "a" 7].
Proof.
  cbv zeta.
  apply (raw_datum_only_when_plain_field false
           (sampleMetric [("a", VInt 7); ("a_max", VInt 3)] [])
           (map_to_list
              (Metric.Fields
                 (sampleMetric [("a", VInt 7); ("a_max", VInt 3)] [])))
           "a" 7).
  - unfold range_order. reflexivity.
  - split; [reflexivity|]. exists (VInt 7). split; [|reflexivity].
    apply elem_of_map_to_list. by vm_compute.
Defined.


(** ** Partitioning, continued *)

(** X18: [PartitionDatums] needs a positive size: with size 0 it panics
    (division by zero), and with a negative size it either panics or
    returns no partition at all, so that it never hands back a datum. *)
Theorem PartitionDatums_nonpositive_size (size : Z)
    (datums : list MetricDatum.t) :
  (- 2 ^ 63 ≤ size ≤ 0)%Z →
  (Z.of_nat (length datums) < 2 ^ 62)%Z →
  (size = 0%Z → PartitionDatums size datums = None) ∧
  (PartitionDatums size datums = None ∨
   PartitionDatums size datums = Some []).
Proof.
  intros Hsize Hlen. split.
  { intros ->. reflexivity. }
  unfold PartitionDatums.
  destruct (decide (size = 0)%Z) as [|Hnz]; [by left|].
  set (len := Z.of_nat (length datums)) in *.
  assert (0 ≤ len)%Z as Hlen0 by (subst len; lia).
  assert (len `quot` size = - (len `quot` (- size)))%Z as Hq
    by (rewrite Z.quot_opp_r by lia; lia).
  assert (len `rem` size = len `rem` (- size))%Z as Hr
    by (by rewrite Z.rem_opp_r by lia).
  rewrite Hq, Hr.
  rewrite Z.quot_div_nonneg, Z.rem_mod_nonneg by lia.
  pose proof (Z.div_mod len (- size)) as Hdm.
  pose proof (Z.mod_pos_bound len (- size)) as Hmod.
  assert (0 ≤ len `div` (- size) ≤ len)%Z as Hdiv.
  { split; [apply Z.div_pos; lia|]. apply Z.div_le_upper_bound; nia. }
  rewrite (wrap64_small (- (len `div` (- size)))) by lia.
  set (q := (len `div` (- size))%Z) in *.
  destruct (decide (len `mod` (- size) ≠ 0)%Z) as [Hrem|Hrem].
  - rewrite wrap64_small by lia.
    destruct (decide (- q + 1 < 0)%Z) as [|Hn]; [by left|].
    destruct (decide (q = 0)%Z) as [Hq0|Hq0].
    + left. rewrite Hq0. simpl.
      change (wrap64 (0 + 1)) with 1%Z.
      rewrite Z.mul_0_r, Z.mul_1_r.
      change (wrap64 0) with 0%Z.
      rewrite (wrap64_small size) by lia.
      rewrite decide_False by lia.
      unfold slice. by rewrite decide_False by lia.
    + right. replace (- q + 1)%Z with 0%Z by lia. reflexivity.
  - destruct (decide (- q < 0)%Z) as [|Hn]; [by left|].
    right. replace (- q)%Z with 0%Z by lia. reflexivity.
Qed.

Lemma PartitionDatums_nonpositive_size_witness :
  PartitionDatums (-2) (replicate 3 sampleDatum) = None ∨
  PartitionDatums (-2) (replicate 3 sampleDatum) = Some [].
Proof.
  apply (PartitionDatums_nonpositive_size (-2) (replicate 3 sampleDatum));
    simpl; lia.
Defined.

(** X19: for a positive size the number of partitions is the least
    number of chunks of that size that hold all the datums: [size] times
    one chunk fewer is not enough, [size] times the number is. *)
Theorem PartitionDatums_count (size : Z) (datums : list MetricDatum.t) :
  (0 < size < 2 ^ 63)%Z →
  (Z.of_nat (length datums) < 2 ^ 62)%Z →
  ∃ partitions,
    PartitionDatums size datums = Some partitions ∧
    (size * (Z.of_nat (length partitions) - 1) <
       Z.of_nat (length datums) ≤ size * Z.of_nat (length partitions))%Z.
Proof.
  intros Hsize Hlen.
  unfold PartitionDatums. rewrite decide_False by lia.
  pose proof (numberOfPartitions_spec size (Z.of_nat (length datums))
                Hsize ltac:(lia)) as Hn.
  cbv zeta in Hn.
  set (n := if decide (_ ≠ 0)%Z then _ else _) in *.
  destruct Hn as (Hn0 & Hcover & Htight).
  rewrite decide_False by lia.
  destruct (partition_loop_spec size datums (Z.to_nat n) 0)
    as (partitions & Hloop & Hcount & _);
    [lia | lia | | nia |].
  { destruct (decide (n ≤ 1)%Z); nia. }
  exists partitions. split; [done|]. rewrite Hcount. nia.
Qed.

Lemma PartitionDatums_count_witness :
  ∃ partitions,
    PartitionDatums 20 (replicate 41 sampleDatum) = Some partitions ∧
    length partitions = 3.
Proof.
  destruct (PartitionDatums_count 20 (replicate 41 sampleDatum))
    as (partitions & Hp & Hcount); [lia | simpl; lia |].
  exists partitions. split; [exact Hp|].
  rewrite length_replicate in Hcount. lia.
Defined.

(** ** The write driver, continued *)

Section WriteExtras.

Context {error : Type}.
Variable respond : list (@event error) → PutMetricDataInput.t → option error.

Lemma elem_of_events_of (c : CloudWatch.t)
    (sent : list (list MetricDatum.t)) (err : option error)
    (input : PutMetricDataInput.t) :
  PutMetricData input ∈ events_of c sent err →
  ∃ p, p ∈ sent ∧ input = params c p.
Proof.
  unfold events_of. intros [Hin|Hin]%elem_of_app.
  - apply list_elem_of_fmap in Hin as (p & [= ->] & Hp). eauto.
  - destruct err; [|by apply elem_of_nil in Hin].
    by apply list_elem_of_singleton in Hin.
Qed.

(** X20: every call that [Write] makes to the transport carries the
    configured namespace and a batch of at least one and at most twenty
    datums, and [Write] only ever appends to the history of events. *)
Theorem Write_calls_are_bounded (c : CloudWatch.t)
    (metrics : list Metric.t) (history history' : list (@event error))
    (err : option error) :
  (Z.of_nat (length (collect c metrics)) < 2 ^ 62)%Z →
  Write respond c metrics history = Some (err, history') →
  ∃ new,
    history' = history ++ new ∧
    ∀ input, PutMetricData input ∈ new →
      PutMetricDataInput.Namespace input = Some (CloudWatch.Namespace c) ∧
      0 < length (PutMetricDataInput.MetricData input) ≤ 20.
Proof.
  intros Hlen Hwrite. unfold Write in Hwrite.
  destruct (PartitionDatums_spec maxDatumsPerCall (collect c metrics))
    as (partitions & Hps & _ & Hlens & _); [by unfold maxDatumsPerCall | done |].
  rewrite Hps in Hwrite. simpl in Hwrite.
  destruct (write_partitions_spec respond c partitions history)
    as (sent & rest & err' & -> & Hrun & _).
  rewrite Hrun in Hwrite. injection Hwrite as <- <-.
  exists (events_of c sent err'). split; [done|].
  intros input Hin. apply elem_of_events_of in Hin as (p & Hp & ->).
  split; [done|]. simpl.
  apply list_elem_of_lookup in Hp as [j Hj].
  destruct (Hlens j p) as [Hbound _].
  { by apply lookup_app_l_Some. }
  unfold maxDatumsPerCall in Hbound. lia.
Qed.

(** X21: when the transport accepts every call, [Write] returns [nil],
    logs nothing, and the batches it submitted, put end to end, are
    exactly the datums of all the metrics, in order: nothing is lost,
    duplicated or reordered. *)
Theorem Write_delivers_every_datum (c : CloudWatch.t)
    (metrics : list Metric.t) (history : list (@event error)) :
  (∀ h input, respond h input = None) →
  (Z.of_nat (length (collect c metrics)) < 2 ^ 62)%Z →
  ∃ sent,
    Write respond c metrics history =
      Some (None, history ++ ((λ p, PutMetricData (params c p)) <$> sent)) ∧
    concat sent = collect c metrics.
Proof.
  intros Hok Hlen. unfold Write.
  destruct (PartitionDatums_spec maxDatumsPerCall (collect c metrics))
    as (partitions & Hps & Hcat & _); [by unfold maxDatumsPerCall | done |].
  rewrite Hps. simpl.
  destruct (write_partitions_spec respond c partitions history)
    as (sent & rest & err & -> & Hrun & Hresps & Hnone & Hsome).
  destruct err as [e|].
  - exfalso.
    destruct (exists_last (Hsome (mk_is_Some _ _ eq_refl)))
      as (sent' & p & ->).
    specialize (Hresps (length sent') p).
    rewrite lookup_app_r, Nat.sub_diag in Hresps by lia.
    specialize (Hresps eq_refl).
    rewrite Hok, length_app in Hresps. simpl in Hresps.
    by rewrite decide_True in Hresps by lia.
  - rewrite Hrun. rewrite (Hnone eq_refl), app_nil_r in Hcat.
    exists sent. split; [|done].
    unfold events_of. by rewrite app_nil_r.
Qed.

(** X22: when the metrics yield no datum (no metric at all, or no field
    that converts), [Write] makes no call to the transport, whatever the
    transport would have answered, and returns [nil]. *)
Theorem Write_nothing_to_send (c : CloudWatch.t)
    (metrics : list Metric.t) (history : list (@event error)) :
  collect c metrics = [] →
  Write respond c metrics history = Some (None, history).
Proof. intros Hnone. unfold Write. by rewrite Hnone. Qed.

End WriteExtras.

Lemma Write_calls_are_bounded_witness :
  ∃ new,
    [PutMetricData
       (params sampleCloudWatch
          (BuildMetricDatum false false
             (sampleMetric [("load", VFloat64 1)] [])));
     LogErrorf "throttled"] = [] ++ new ∧
    ∀ input, PutMetricData input ∈ new →
      PutMetricDataInput.Namespace input = Some "InfluxData/Telegraf" ∧
      0 < length (PutMetricDataInput.MetricData input) ≤ 20.
Proof.
  apply (Write_calls_are_bounded (λ _ _, Some "throttled") sampleCloudWatch
           [sampleMetric [("load", VFloat64 1)] []] []
           _ (Some "throttled")).
  - by vm_compute.
  - by vm_compute.
Defined.

Lemma Write_delivers_every_datum_witness :
  ∃ sent,
    Write (error := string) (λ _ _, None) sampleCloudWatch
      [sampleMetric [("load", VFloat64 1); ("idle", VInt 3)] []] [] =
      Some (None, [] ++ ((λ p, PutMetricData (params sampleCloudWatch p))
                           <$> sent)) ∧
    concat sent =
      collect sampleCloudWatch
        [sampleMetric [("load", VFloat64 1); ("idle", VInt 3)] []].
Proof.
  apply (Write_delivers_every_datum (error := string) (λ _ _, None)
           sampleCloudWatch
           [sampleMetric [("load", VFloat64 1); ("idle", VInt 3)] []] []).
  - reflexivity.
  - by vm_compute.
Defined.

Lemma Write_nothing_to_send_witness :
  Write (λ _ _, Some "unreachable") sampleCloudWatch
    [sampleMetric [("name", VString "a"); ("ratio", VFloat64 nan)] []] [] =
    Some (None, []).
Proof.
  apply (Write_nothing_to_send (λ _ _, Some "unreachable") sampleCloudWatch
           [sampleMetric [("name", VString "a"); ("ratio", VFloat64 nan)] []]
           []).
  by vm_compute.
Defined.
